(** * Universe-from-Black-Hole simulation: sequencer, mappers and body animators

    A shallow embedding of the time-driven logic of the simulation:
    - [types.ts]: the phase enumeration and the records passed around;
    - [SceneLogic] (the main scene controller): the per-frame phase
      sequencer and the simulated-year mapper;
    - [App.handleUpdate]: the stability score and the stability graph;
    - [Sun], [IntruderBlackHole], [Planet]: the per-frame rules the
      properties below depend on.

    Numbers.  A TypeScript [number] is modelled as an exact rational [Q]:
    [+], [-], [*], [/] are the field operations and the comparisons are the
    order of [Q].  Rounding, infinities and NaN are outside this model;
    [Date.now()] is an integer number of milliseconds, modelled as [Z].
    Equality of numbers is [Qeq] (written [==]); where the code returns the
    very term it computed, the theorems state Leibniz equality.

    React state.  A component's [useState] cell is a value threaded through
    its per-frame callback.  The callback reads the cell of the render it
    closed over and queues updaters; the queue is applied in order to give
    the cell of the next render. *)

From Stdlib Require Import QArith Qminmax Qabs Qpower Qround Lqa ZArith Lia.
From Stdlib Require Import List String Bool.
Import ListNotations.
Open Scope Q_scope.

(** ** JavaScript and three.js primitives used by the source *)

Module JS.

Definition number := Q.

(** [a > b] and [a < b] on numbers. *)
Definition gt (a b : number) : bool := negb (Qle_bool a b).

Definition lt (a b : number) : bool := negb (Qle_bool b a).

(** [x || y] on numbers: [x] unless it is falsy, that is, zero. *)
Definition or_else (x y : number) : number :=
  if Qeq_bool x 0 then y else x.

Definition Math_max (a b : number) : number := Qmax a b.

Definition Math_min (a b : number) : number := Qmin a b.

Definition Math_abs (a : number) : number := Qabs a.

Definition Math_floor (a : number) : number := inject_Z (Qfloor a).

(** [Math.pow(x, n)] for an integer exponent [n]. *)
Definition Math_pow (x : number) (n : Z) : number := Qpower x n.

(** [THREE.MathUtils.lerp(x, y, t)] is [(1 - t) * x + t * y]. *)
Definition lerp (x y t : number) : number := (1 - t) * x + t * y.

(** A queue of state updaters, applied in the order they were queued. *)
Definition apply_queue {S : Type} (queue : list (S -> S)) (s : S) : S :=
  fold_left (fun acc u => u acc) queue s.

End JS.

(** ** types.ts *)

Inductive SimulationPhase : Type :=
  | stable | approach | interaction | consumption | void | rebirth.

Definition phase_eqb (a b : SimulationPhase) : bool :=
  match a, b with
  | stable, stable | approach, approach | interaction, interaction
  | consumption, consumption | void, void | rebirth, rebirth => true
  | _, _ => false
  end.

Module Types.

Record SimulationState : Type := mkParams {
  energyDensity : JS.number;
  volume : JS.number;
  lambdaM : JS.number;
  isPlaying : bool;
  phase : SimulationPhase;
  timeScale : JS.number;
  year : JS.number
}.

Inductive BodyType : Type := star | planet | gas_giant | black_hole.

(** [CosmicObject], without the display-only [mass], [description],
    [texture] and [ring] fields. *)
Record CosmicObject : Type := mkBody {
  name : string;
  radius : JS.number;
  color : string;
  distance : JS.number;
  angle : JS.number;
  speed : JS.number;
  type : BodyType
}.

End Types.

Import Types.

(** ** The hardcoded bodies *)

Definition MERCURY : CosmicObject := mkBody "Mercury" 0.2 "#A5A5A5" 10 0 1.5 planet.

Definition VENUS : CosmicObject := mkBody "Venus" 0.5 "#E3BB76" 16 2 1.2 planet.

Definition EARTH : CosmicObject := mkBody "Earth" 0.55 "#0077BE" 24 4 1.0 planet.

Definition MARS : CosmicObject := mkBody "Mars" 0.3 "#C0392B" 32 1 0.8 planet.

Definition JUPITER : CosmicObject := mkBody "Jupiter" 1.8 "#D4AC0D" 55 5 0.4 gas_giant.

Definition SATURN : CosmicObject := mkBody "Saturn" 1.5 "#F4D03F" 85 3 0.3 gas_giant.

Definition SOLAR_SYSTEM : list CosmicObject :=
  [MERCURY; VENUS; EARTH; MARS; JUPITER; SATURN].

(** ** SceneLogic: the phase sequencer and the year mapper *)

Module SceneLogic.

(** The controller's own state, [useState({phase: 'stable', timer: 0})]. *)
Record SceneState : Type := mkScene {
  phase : SimulationPhase;
  timer : JS.number
}.

Definition initial : SceneState := mkScene stable 0.

(** [const dt = delta * (params.timeScale || 1)]. *)
Definition frame_dt (params : SimulationState) (delta : JS.number) : JS.number :=
  delta * JS.or_else (timeScale params) 1.

(** The updater passed to [setSceneState]: the chain of [if / else if]
    over the previous phase. *)
Definition advance (prev : SceneState) (dt : JS.number) : SceneState :=
  let nextTimer := timer prev + dt in
  let nextPhase := phase prev in
  if phase_eqb (phase prev) stable && JS.gt nextTimer 5 then
    mkScene approach 0
  else if phase_eqb (phase prev) approach && JS.gt nextTimer 10 then
    mkScene interaction 0
  else if phase_eqb (phase prev) interaction && JS.gt nextTimer 20 then
    mkScene consumption 0
  else if phase_eqb (phase prev) consumption && JS.gt nextTimer 10 then
    mkScene void 0
  else if phase_eqb (phase prev) void && JS.gt nextTimer 5 then
    mkScene rebirth 0
  else if phase_eqb (phase prev) rebirth && JS.gt nextTimer 15 then
    mkScene stable 0
  else
    mkScene nextPhase nextTimer.

(** The state part of the [useFrame] callback: nothing happens while
    [params.isPlaying] is false. *)
Definition frame (params : SimulationState) (delta : JS.number)
    (s : SceneState) : SceneState :=
  if negb (isPlaying params) then s
  else advance s (frame_dt params delta).

(** A run of frames, each with the parameters and the delta it saw. *)
Definition run (frames : list (SimulationState * JS.number))
    (s : SceneState) : SceneState :=
  fold_left (fun acc f => frame (fst f) (snd f) acc) frames s.

(** The [switch] that computes [currentYear] from the phase and [t]. *)
Definition currentYear (ph : SimulationPhase) (t : JS.number) : JS.number :=
  match ph with
  | stable => 2025
  | approach => 2025 + (t * 100)
  | interaction => 3025 + (t * 2.5)
  | consumption => 3075 + (t * 0.1)
  | void => 0
  | rebirth => JS.Math_pow t 6
  end.

(** What a playing frame hands to [onUpdate]: the phase and the year of
    the state the callback closed over (not of the state it queued). *)
Definition reported (s : SceneState) : SimulationPhase * JS.number :=
  (phase s, currentYear (phase s) (timer s)).

End SceneLogic.

(** ** App: the stability score and the stability graph *)

Module GraphPoint.

(** One entry of [graphData], [{ year, stability }]. *)
Record t : Type := mk {
  year : JS.number;
  stability : JS.number
}.

End GraphPoint.

Module App.

Record AppState : Type := mkApp {
  params : SimulationState;
  graphData : list GraphPoint.t;
  lastUpdateRef : Z
}.

Definition initialParams : SimulationState :=
  mkParams 20 36 1.0 true stable 1.0 2025.

Definition initial : AppState := mkApp initialParams [] 0%Z.

(** The stability score of [handleUpdate]: five independent [if]s over
    the phase, then the clamp. *)
Definition stability (ph : SimulationPhase) (yr : JS.number) : JS.number :=
  let s := 100 in
  let s := if phase_eqb ph approach then 95 - ((yr - 2025) / 20) else s in
  let s := if phase_eqb ph interaction then 80 - ((yr - 3025) * 2) else s in
  let s := if phase_eqb ph consumption then 20 - ((yr - 3075) * 2) else s in
  let s := if phase_eqb ph void then 0 else s in
  let s := if phase_eqb ph rebirth then 100 else s in
  JS.Math_max 0 (JS.Math_min 100 s).

(** The updater of the throttled sample: append, then keep the last 50. *)
Definition append_point (pt : GraphPoint.t) (curr : list GraphPoint.t)
    : list GraphPoint.t :=
  let newData := curr ++ [pt] in
  if (50 <? List.length newData)%nat
  then skipn (List.length newData - 50) newData
  else newData.

Definition seed : GraphPoint.t := GraphPoint.mk 0 100.

(** [setGraphData([{ year: 0, stability: 100 }])]. *)
Definition reseed (curr : list GraphPoint.t) : list GraphPoint.t := [seed].

(** [now - lastUpdateRef.current > 500 && phase !== 'stable']. *)
Definition sampling (ph : SimulationPhase) (now : Z) (st : AppState) : bool :=
  (500 <? now - lastUpdateRef st)%Z && negb (phase_eqb ph stable).

(** [phase === 'rebirth' && prev.phase === 'void']. *)
Definition reseeding (ph : SimulationPhase) (st : AppState) : bool :=
  phase_eqb ph rebirth && phase_eqb (Types.phase (params st)) void.

(** The [setGraphData] calls one [handleUpdate] makes, in order. *)
Definition graph_updates (ph : SimulationPhase) (yr : JS.number) (now : Z)
    (st : AppState) : list (list GraphPoint.t -> list GraphPoint.t) :=
  (if sampling ph now st
   then [append_point (GraphPoint.mk (JS.Math_floor yr) (stability ph yr))]
   else [])
  ++ (if reseeding ph st then [reseed] else []).

(** [handleUpdate(phase, year)] at wall-clock time [now]. *)
Definition handleUpdate (ph : SimulationPhase) (yr : JS.number) (now : Z)
    (st : AppState) : AppState :=
  let prev := params st in
  mkApp
    (if negb (phase_eqb (Types.phase prev) ph)
        || JS.gt (JS.Math_abs (year prev - yr)) 0.1
     then mkParams (energyDensity prev) (volume prev) (lambdaM prev)
                   (isPlaying prev) ph (timeScale prev) yr
     else prev)
    (JS.apply_queue (graph_updates ph yr now st) (graphData st))
    (if sampling ph now st then now else lastUpdateRef st).

(** A run of calls, each with the phase, the year and the clock it saw. *)
Definition run (calls : list (SimulationPhase * JS.number * Z))
    (st : AppState) : AppState :=
  fold_left (fun acc c => handleUpdate (fst (fst c)) (snd (fst c)) (snd c) acc)
            calls st.

End App.

(** ** Sun *)

Module Sun.

(** What one frame writes: the mesh scale (x, y, z), the light intensity,
    [currentIntensity], and the argument of [onConsume] when it is called. *)
Record Frame : Type := mkFrame {
  scale : JS.number * JS.number * JS.number;
  lightIntensity : JS.number;
  currentIntensity : JS.number;
  onConsume : option JS.number
}.

(** The scale of the consumption branch. *)
Definition consumption_scale (timer : JS.number) : JS.number :=
  JS.Math_max 0 (1 - (timer / 5)).

(** The [useFrame] callback, given [dist = bhPosition.length()]; it writes
    nothing in the void and rebirth phases. *)
Definition frame (ph : SimulationPhase) (timer dist : JS.number) : option Frame :=
  if phase_eqb ph interaction then
    let dimFactor := JS.Math_min 1 (dist / 20) in
    let stretch := JS.Math_max 1 (15 / (dist + 0.1)) in
    Some (mkFrame (1, 1, 1 + (stretch * 0.2)) (2 * dimFactor) dimFactor None)
  else if phase_eqb ph consumption then
    let scale := consumption_scale timer in
    Some (mkFrame (scale, scale, scale) (scale * 0.5) scale (Some (1 - scale)))
  else if phase_eqb ph stable || phase_eqb ph approach then
    Some (mkFrame (1, 1, 1) 2 1 (Some 0))
  else None.

(** [sunConsumed] after the frame: [onConsume] is [setSunConsumed]. *)
Definition sunConsumed_after (ph : SimulationPhase) (timer dist : JS.number)
    (sunConsumed : JS.number) : JS.number :=
  match frame ph timer dist with
  | Some f =>
      match onConsume f with
      | Some amount => amount
      | None => sunConsumed
      end
  | None => sunConsumed
  end.

(** [showStream], from the phase and the [currentIntensity] state. *)
Definition showStream (ph : SimulationPhase) (currentIntensity : JS.number)
    : bool :=
  (phase_eqb ph interaction || phase_eqb ph consumption)
  && JS.gt currentIntensity 0.05.

(** [sunConsumed] after a run of Sun frames, each with the phase, the
    timer and the intruder distance it saw. *)
Definition run (frames : list (SimulationPhase * JS.number * JS.number))
    (sunConsumed : JS.number) : JS.number :=
  fold_left
    (fun acc f => sunConsumed_after (fst (fst f)) (snd (fst f)) (snd f) acc)
    frames sunConsumed.

End Sun.

(** ** IntruderBlackHole: the accretion disk *)

Module IntruderBlackHole.

(** The [ringGeometry] arguments (inner, outer radius) of the accretion
    disk, when the component renders it. *)
Definition accretionDisk (ph : SimulationPhase) (sunConsumed : JS.number)
    : option (JS.number * JS.number) :=
  if phase_eqb ph stable then None
  else if phase_eqb ph rebirth then None
  else if phase_eqb ph interaction || phase_eqb ph consumption
  then Some (2, 2 + (sunConsumed * 4))
  else None.

End IntruderBlackHole.

(** ** IntruderBlackHole: the motion of the intruder *)

Module IntruderMotion.

(** The component's render: [null] in the stable and rebirth phases. *)
Definition rendered (ph : SimulationPhase) : bool :=
  negb (phase_eqb ph stable) && negb (phase_eqb ph rebirth).

(** [THREE.Vector3], and its [lerp(v, alpha)]: each component moves by
    [(v - this) * alpha]. *)
Definition Vector3 : Type := (JS.number * JS.number * JS.number)%type.

Definition Vector3_lerp (this v : Vector3) (alpha : JS.number) : Vector3 :=
  let '(x, y, z) := this in
  let '(vx, vy, vz) := v in
  (x + (vx - x) * alpha, y + (vy - y) * alpha, z + (vz - z) * alpha).

(** [targetPos] of the [useFrame] callback.  [Math.sin] and [Math.cos]
    are taken as the parameters [sin] and [cos]. *)
Definition targetPos (sin cos : JS.number -> JS.number)
    (ph : SimulationPhase) (timer : JS.number) : Vector3 :=
  if phase_eqb ph approach then
    let t := JS.Math_min 1 (timer / 10) in
    (sin (timer * 0.5) * 5, 0, JS.lerp 80 20 t)
  else if phase_eqb ph interaction then
    let t := timer * 0.5 in
    let radius := JS.lerp 20 8 (JS.Math_min 1 (timer / 20)) in
    (cos t * radius, 0, sin t * radius)
  else if phase_eqb ph consumption then
    let t := JS.Math_min 1 (timer / 5) in
    Vector3_lerp (0, 0, 0) (0, 0, 0) t
  else if phase_eqb ph void || phase_eqb ph rebirth then
    (0, 0, 0)
  else
    (0, 0, 80).

(** The callback returns at once while [groupRef.current] is unset, that
    is, while the component renders [null]; otherwise it hands [targetPos]
    to [setBhPosition]. *)
Definition frame (sin cos : JS.number -> JS.number)
    (ph : SimulationPhase) (timer : JS.number) (bhPosition : Vector3)
    : Vector3 :=
  if negb (rendered ph) then bhPosition else targetPos sin cos ph timer.

(** The shared position after a run of frames, each with the phase and
    the timer it saw. *)
Definition run (sin cos : JS.number -> JS.number)
    (frames : list (SimulationPhase * JS.number)) (bhPosition : Vector3)
    : Vector3 :=
  fold_left (fun acc f => frame sin cos (fst f) (snd f) acc) frames bhPosition.

End IntruderMotion.

(** ** Planet *)

Module Planet.

Record OrbitState : Type := mkOrbit {
  dist : JS.number;
  angle : JS.number;
  destroyed : bool
}.

Definition initial (data : CosmicObject) : OrbitState :=
  mkOrbit (distance data) (Types.angle data) false.

(** The component's render: [null] when destroyed or in the void. *)
Definition rendered (ph : SimulationPhase) (orbitState : OrbitState) : bool :=
  negb (destroyed orbitState || phase_eqb ph void).

(** [ref.current] is the rendered group: it is set exactly when the
    render the callback closed over returned the group. *)
Definition ref_current (ph : SimulationPhase) (orbitState : OrbitState) : bool :=
  rendered ph orbitState.

Definition mark_destroyed (prev : OrbitState) : OrbitState :=
  mkOrbit (dist prev) (angle prev) true.

Definition set_orbit (newDist newAngle : JS.number) (prev : OrbitState)
    : OrbitState :=
  mkOrbit newDist newAngle (destroyed prev).

(** The [setOrbitState] calls of one [useFrame] callback, in order; the
    mesh position and scale it also writes do not feed back into the
    orbit state and are left out. *)
Definition frame_updates (data : CosmicObject) (ph : SimulationPhase)
    (timer delta : JS.number) (orbitState : OrbitState)
    : list (OrbitState -> OrbitState) :=
  if negb (ref_current ph orbitState) || destroyed orbitState then []
  else
    let reset :=
      if phase_eqb ph stable && destroyed orbitState
      then [fun _ : OrbitState => initial data]
      else [] in
    let speed0 := speed data * delta * 0.5 in
    let newDist := dist orbitState in
    let newAngle := angle orbitState + speed0 in
    if phase_eqb ph rebirth then
      let rebirthProgress := JS.Math_min 1 (timer / 10) in
      let newDist := JS.lerp 0.1 (distance data) rebirthProgress in
      let speed1 := 2.0 * (1.0 - rebirthProgress) + speed data * 0.5 in
      let newAngle := newAngle + speed1 in
      reset ++ [set_orbit newDist newAngle]
    else if phase_eqb ph interaction then
      reset
      ++ (if String.eqb (name data) "Venus" && JS.gt timer 5
          then [mark_destroyed] else [])
      ++ [set_orbit newDist newAngle]
    else if phase_eqb ph consumption then
      let newDist := JS.lerp newDist 0 (delta * 0.5) in
      reset
      ++ (if JS.lt newDist 2 then [mark_destroyed] else [])
      ++ [set_orbit newDist newAngle]
    else
      reset ++ [set_orbit newDist newAngle].

Definition frame (data : CosmicObject) (ph : SimulationPhase)
    (timer delta : JS.number) (orbitState : OrbitState) : OrbitState :=
  JS.apply_queue (frame_updates data ph timer delta orbitState) orbitState.

(** A run of frames, each with the phase, the timer and the delta it saw. *)
Definition run (data : CosmicObject)
    (frames : list (SimulationPhase * JS.number * JS.number))
    (orbitState : OrbitState) : OrbitState :=
  fold_left (fun acc f => frame data (fst (fst f)) (snd (fst f)) (snd f) acc)
            frames orbitState.

(** The scale the callback gives the mesh, when it runs to its end. *)
Definition frame_scale (ph : SimulationPhase) (timer : JS.number)
    (orbitState : OrbitState) : option JS.number :=
  if negb (ref_current ph orbitState) || destroyed orbitState then None
  else if phase_eqb ph rebirth then Some (JS.Math_min 1 (timer / 10))
  else Some 1.

End Planet.

(** ** The sequencer's transition table and year formulas, as specified *)

Module SequencerSpec.

(** Duration threshold of each phase, in seconds of scaled time. *)
Definition threshold (p : SimulationPhase) : Q :=
  match p with
  | stable => 5
  | approach => 10
  | interaction => 20
  | consumption => 10
  | void => 5
  | rebirth => 15
  end.

(** The fixed cyclic order. *)
Definition next (p : SimulationPhase) : SimulationPhase :=
  match p with
  | stable => approach
  | approach => interaction
  | interaction => consumption
  | consumption => void
  | void => rebirth
  | rebirth => stable
  end.

(** The per-phase year formulas. *)
Definition year_formula (p : SimulationPhase) (t : Q) : Q :=
  match p with
  | stable => 2025
  | approach => 2025 + 100 * t
  | interaction => 3025 + 2.5 * t
  | consumption => 3075 + 0.1 * t
  | void => 0
  | rebirth => t ^ 6
  end.

End SequencerSpec.

(** ** Helpers and decoration *)

Module Helpers.

(** [randomRange(min, max)], with the draw of [Math.random()] as
    [random]. *)
Definition randomRange (random min max : JS.number) : JS.number :=
  random * (max - min) + min.

End Helpers.

Module AsteroidBelt.

(** The orbital radius of one asteroid, for one draw. *)
Definition radius (random : JS.number) : JS.number :=
  Helpers.randomRange random 35 45.

End AsteroidBelt.

Module MilkyWay.

(** The three material opacities the callback writes. *)
Record Opacities : Type := mkOpacities {
  particles1 : JS.number;
  particles2 : JS.number;
  glow : JS.number
}.

(** [targetOpacity], from the phase and [cameraDist], the length of the
    camera position. *)
Definition targetOpacity (ph : SimulationPhase) (cameraDist : JS.number)
    : JS.number :=
  let isZoomedOut := JS.gt cameraDist 100 in
  let isPostRebirth := phase_eqb ph rebirth || phase_eqb ph stable in
  if isZoomedOut && isPostRebirth then 0.8 else 0.

Definition frame (ph : SimulationPhase) (cameraDist : JS.number)
    (o : Opacities) : Opacities :=
  let targetOpacity := targetOpacity ph cameraDist in
  mkOpacities
    (JS.lerp (particles1 o) (targetOpacity * 0.3) 0.05)
    (JS.lerp (particles2 o) (targetOpacity * 0.5) 0.05)
    (JS.lerp (glow o) (targetOpacity * 0.05) 0.05).

End MilkyWay.

(** ** Dashboard *)

Module Dashboard.

(** The [subtext] of [TimelineDisplay]. *)
Definition subtext (yr : JS.number) (ph : SimulationPhase) : string :=
  if phase_eqb ph rebirth then
    if JS.lt yr 1000 then "Expansion"
    else if JS.lt yr 1000000 then "Cooling"
    else "Accretion"
  else if phase_eqb ph void then "Singularity"
  else "Cosmic Timeline".

(** The play / pause button: [p => ({ ...p, isPlaying: !p.isPlaying })]. *)
Definition togglePlay (p : SimulationState) : SimulationState :=
  mkParams (energyDensity p) (volume p) (lambdaM p) (negb (isPlaying p))
           (Types.phase p) (timeScale p) (year p).

(** The time-scale slider: [{ ...params, timeScale: value }], where
    [value] is the number the slider holds. *)
Definition setTimeScale (params : SimulationState) (value : JS.number)
    : SimulationState :=
  mkParams (energyDensity params) (volume params) (lambdaM params)
           (isPlaying params) (Types.phase params) value (year params).

(** The bounds of the slider, its [min] and [max] attributes. *)
Definition sliderMin : JS.number := 0.1.

Definition sliderMax : JS.number := 5.0.

(** The stability chart is drawn when [graphData.length > 1]. *)
Definition chartShown (graphData : list GraphPoint.t) : bool :=
  (1 <? List.length graphData)%nat.

End Dashboard.

(** ** Concrete inputs used in the examples *)

Definition pausedParams (scale : Q) : SimulationState :=
  mkParams 20 36 1.0 false stable scale 2025.

Definition playingParams (scale : Q) : SimulationState :=
  mkParams 20 36 1.0 true stable scale 2025.

(** ** Facts about the primitives *)

Section Primitives.

Lemma gt_true_iff (a b : Q) : JS.gt a b = true <-> b < a.
Proof.
  unfold JS.gt. rewrite negb_true_iff, <- not_true_iff_false, Qle_bool_iff.
  split; [apply Qnot_le_lt | apply Qlt_not_le].
Qed.

Lemma gt_false_iff (a b : Q) : JS.gt a b = false <-> a <= b.
Proof. unfold JS.gt. now rewrite negb_false_iff, Qle_bool_iff. Qed.

Lemma lt_true_iff (a b : Q) : JS.lt a b = true <-> a < b.
Proof. exact (gt_true_iff b a). Qed.

Lemma lt_false_iff (a b : Q) : JS.lt a b = false <-> b <= a.
Proof. exact (gt_false_iff b a). Qed.

Lemma phase_eqb_spec (a b : SimulationPhase) : reflect (a = b) (phase_eqb a b).
Proof. destruct a, b; constructor; congruence. Qed.

Lemma phase_eqb_refl (a : SimulationPhase) : phase_eqb a a = true.
Proof. now destruct a. Qed.

Lemma or_else_zero (x y : Q) : x == 0 -> JS.or_else x y = y.
Proof.
  intros H. unfold JS.or_else. apply Qeq_bool_iff in H. now rewrite H.
Qed.

Lemma or_else_nonzero (x y : Q) : ~ x == 0 -> JS.or_else x y = x.
Proof.
  intros H. unfold JS.or_else.
  destruct (Qeq_bool x 0) eqn:E; [| reflexivity].
  apply Qeq_bool_iff in E. contradiction.
Qed.

Lemma apply_queue_app {S : Type} (q1 q2 : list (S -> S)) (s : S) :
  JS.apply_queue (q1 ++ q2) s = JS.apply_queue q2 (JS.apply_queue q1 s).
Proof. unfold JS.apply_queue. apply fold_left_app. Qed.

End Primitives.

(** ** The phase sequencer *)

Section Sequencer.

Import SceneLogic SequencerSpec.

Lemma next_is_a_six_cycle (p : SimulationPhase) :
  next (next (next (next (next (next p))))) = p /\ next p <> p.
Proof. destruct p; split; cbn; congruence. Qed.

Lemma next_injective (p q : SimulationPhase) : next p = next q -> p = q.
Proof. destruct p, q; cbn; congruence. Qed.

(** The updater is a table lookup: one comparison against the threshold
    of the previous phase. *)
Lemma advance_table (s : SceneState) (dt : Q) :
  advance s dt =
    if JS.gt (timer s + dt) (threshold (phase s))
    then mkScene (next (phase s)) 0
    else mkScene (phase s) (timer s + dt).
Proof.
  destruct s as [p e]; unfold advance; cbn [SceneLogic.phase timer].
  destruct p; cbn [phase_eqb andb threshold next];
    repeat match goal with
           | |- context [JS.gt ?a ?b] => destruct (JS.gt a b)
           end; reflexivity.
Qed.

Lemma advance_exceeds (p : SimulationPhase) (e dt : Q) :
  threshold p < e + dt -> advance (mkScene p e) dt = mkScene (next p) 0.
Proof.
  intros H. rewrite advance_table. cbn [SceneLogic.phase timer].
  apply gt_true_iff in H. now rewrite H.
Qed.

Lemma advance_within (p : SimulationPhase) (e dt : Q) :
  e + dt <= threshold p -> advance (mkScene p e) dt = mkScene p (e + dt).
Proof.
  intros H. rewrite advance_table. cbn [SceneLogic.phase timer].
  apply gt_false_iff in H. now rewrite H.
Qed.

(** Whatever the inputs, a step stays in the phase or moves to its
    successor: no phase is skipped or entered out of order. *)
Lemma advance_phase (s : SceneState) (dt : Q) :
  phase (advance s dt) = phase s \/ phase (advance s dt) = next (phase s).
Proof.
  rewrite advance_table. destruct (JS.gt _ _); cbn; auto.
Qed.

(** C1. For every phase [p], every non-negative elapsed time [e] and
    every non-negative scaled delta [dt], one sequencer step computes
    [e + dt]; exactly when this exceeds the threshold of [p] (stable 5,
    approach 10, interaction 20, consumption 10, void 5, rebirth 15) the
    step moves to the successor of [p] in the cycle stable, approach,
    interaction, consumption, void, rebirth, stable, with the elapsed time
    reset to 0; otherwise the phase is unchanged and [e + dt] is kept.  The
    new phase is always [p] or its successor. *)
Theorem sequencer_step (p : SimulationPhase) (e dt : Q) :
  0 <= e -> 0 <= dt ->
  let s' := advance (mkScene p e) dt in
  (threshold p < e + dt <-> phase s' = next p)
  /\ (threshold p < e + dt -> s' = mkScene (next p) 0)
  /\ (~ threshold p < e + dt -> s' = mkScene p (e + dt))
  /\ (phase s' = p \/ phase s' = next p).
Proof.
  intros _ _ s'. subst s'.
  destruct (Qlt_le_dec (threshold p) (e + dt)) as [Hgt | Hle].
  - rewrite (advance_exceeds _ _ _ Hgt). cbn [SceneLogic.phase].
    repeat split; auto. intros Hn. contradiction.
  - rewrite (advance_within _ _ _ Hle). cbn [SceneLogic.phase].
    assert (Hn : ~ threshold p < e + dt) by (apply Qle_not_lt; exact Hle).
    repeat split; auto.
    + intros H. contradiction.
    + intros H. symmetry in H. now apply next_is_a_six_cycle in H.
    + intros H. contradiction.
Qed.

(** The scenario of the specification: stable at 4.9 s, delta 0.2 s. *)
Lemma sequencer_step_scenario :
  let s' := advance (mkScene stable 4.9) 0.2 in
  (threshold stable < 4.9 + 0.2 <-> phase s' = next stable)
  /\ (threshold stable < 4.9 + 0.2 -> s' = mkScene (next stable) 0)
  /\ (~ threshold stable < 4.9 + 0.2 -> s' = mkScene stable (4.9 + 0.2))
  /\ (phase s' = stable \/ phase s' = next stable).
Proof.
  apply (sequencer_step stable 4.9 0.2); unfold Qle; simpl; lia.
Defined.

Example scenario_stable_to_approach :
  advance (mkScene stable 4.9) 0.2 = mkScene approach 0.
Proof. reflexivity. Qed.

(** With a paused simulation a frame returns the state it was given. *)
Lemma frame_paused (params : SimulationState) (delta : Q) (s : SceneState) :
  isPlaying params = false -> frame params delta s = s.
Proof. intros H. unfold frame. now rewrite H. Qed.

(** C8. While [isPlaying] is false, any number of frames, with any
    deltas and time scales, leave the sequencer's phase and elapsed time
    as they were. *)
Theorem paused_run_is_frozen (frames : list (SimulationState * Q))
    (s : SceneState) :
  Forall (fun f => isPlaying (fst f) = false) frames ->
  run frames s = s.
Proof.
  unfold run. induction 1 as [| f frames Hf _ IH]; cbn [fold_left].
  - reflexivity.
  - now rewrite (frame_paused _ _ _ Hf).
Qed.

Lemma paused_run_is_frozen_example :
  run [(pausedParams 1.0, 0.016); (pausedParams 5, 100); (pausedParams 0, -3)]
      (mkScene interaction 7.5)
  = mkScene interaction 7.5.
Proof.
  apply paused_run_is_frozen.
  repeat constructor.
Defined.

(** C10. A time scale of exactly 0 does not stop time: the frame
    advances by [delta * 1]; for every non-zero time scale it advances by
    [delta * timeScale]; and that product is what a playing frame hands to
    the sequencer's updater. *)
Theorem zero_time_scale_is_full_speed (params : SimulationState) (delta : Q)
    (s : SceneState) :
  (timeScale params == 0 -> frame_dt params delta = delta * 1)
  /\ (~ timeScale params == 0 ->
      frame_dt params delta = delta * timeScale params)
  /\ (isPlaying params = true ->
      frame params delta s = advance s (frame_dt params delta)).
Proof.
  unfold frame, frame_dt. repeat split; intros H.
  - now rewrite (or_else_zero _ _ H).
  - now rewrite (or_else_nonzero _ _ H).
  - now rewrite H.
Qed.

(** Time scale 0 runs at full speed; time scale 2 doubles a 1 s delta. *)
Example time_scale_scenarios :
  frame (playingParams 0) 1 (mkScene stable 0) = mkScene stable (0 + 1 * 1)
  /\ timer (frame (playingParams 2.0) 1.0 (mkScene stable 0)) == 2.
Proof. split; reflexivity. Qed.

(** Playing or paused, a frame stays in the phase or moves to its
    successor. *)
Lemma frame_phase (params : SimulationState) (delta : Q) (s : SceneState) :
  phase (frame params delta s) = phase s
  \/ phase (frame params delta s) = next (phase s).
Proof.
  unfold frame. destruct (isPlaying params); cbn [negb];
    [apply advance_phase | now left].
Qed.

Lemma frame_dt_nonneg (params : SimulationState) (delta : Q) :
  0 <= delta -> 0 <= timeScale params -> 0 <= frame_dt params delta.
Proof.
  intros Hd Hs. unfold frame_dt, JS.or_else.
  destruct (Qeq_bool (timeScale params) 0); apply Qmult_le_0_compat; auto.
  discriminate.
Qed.

(** C6, as amended.  The frame does not clamp its delta: for every
    delta, negative ones included, a playing frame hands
    [delta * (timeScale || 1)] to the updater as it is, and a playing
    frame that stays in its phase has added exactly that product to the
    elapsed time.  For every non-negative delta and non-negative time
    scale, an update either moves to the next phase with the elapsed time
    reset to 0, or stays in the phase with an elapsed time that did not
    decrease. *)
Theorem nonnegative_delta_never_rewinds (params : SimulationState)
    (delta : Q) (s : SceneState) :
  let s' := frame params delta s in
  let dt := delta * JS.or_else (timeScale params) 1 in
  (isPlaying params = true -> s' = advance s dt)
  /\ (isPlaying params = true -> phase s' = phase s ->
      timer s' = timer s + dt)
  /\ (0 <= delta -> 0 <= timeScale params ->
      (phase s' = next (phase s) /\ timer s' = 0)
      \/ (phase s' = phase s /\ timer s <= timer s')).
Proof.
  intros s' dt. subst s' dt. split; [| split].
  - intros Hp. unfold frame, frame_dt. now rewrite Hp.
  - intros Hp. unfold frame, frame_dt. rewrite Hp. cbn [negb].
    rewrite advance_table. destruct (JS.gt _ _); cbn [phase timer].
    + intros E. now apply next_is_a_six_cycle in E.
    + reflexivity.
  - intros Hd Hs.
    pose proof (frame_dt_nonneg params delta Hd Hs) as Hdt.
    unfold frame. destruct (isPlaying params); cbn [negb].
    + rewrite advance_table. destruct (JS.gt _ _); cbn [phase timer].
      * left. split; reflexivity.
      * right. split; [reflexivity |]. lra.
    + right. split; [reflexivity | apply Qle_refl].
Qed.

(** A playing frame from approach at 3 s, with delta 1 s at time scale 2:
    the product 2 s is added as it is. *)
Lemma nonnegative_delta_never_rewinds_example :
  let s := mkScene approach 3 in
  let s' := frame (playingParams 2.0) 1.0 s in
  let dt := 1.0 * JS.or_else (timeScale (playingParams 2.0)) 1 in
  s' = advance s dt
  /\ timer s' = timer s + dt
  /\ ((phase s' = next (phase s) /\ timer s' = 0)
      \/ (phase s' = phase s /\ timer s <= timer s')).
Proof.
  destruct (nonnegative_delta_never_rewinds (playingParams 2.0) 1.0
              (mkScene approach 3)) as [H1 [H2 H3]].
  split; [apply H1; reflexivity |].
  split; [apply H2; reflexivity |].
  apply H3; unfold Qle; simpl; lia.
Defined.

(** C6, as stated, fails: a negative delta is added as it is.  From
    approach at 3 s, a delta of -2 s at time scale 1 leaves the phase
    unchanged and takes the elapsed time down to 1 s, which is not what a
    delta clamped to [max(0, delta)] gives. *)
Lemma negative_delta_rewinds_timer :
  let s := mkScene approach 3 in
  let s' := frame (playingParams 1.0) (-2) s in
  phase s' = approach
  /\ timer s' == 1
  /\ timer s' < timer s
  /\ ~ timer s' == timer (frame (playingParams 1.0) (Qmax 0 (-2)) s).
Proof.
  cbv zeta. repeat split; try reflexivity. intros H. discriminate H.
Qed.

End Sequencer.

(** ** The year mapper *)

Section YearMapper.

Import SceneLogic SequencerSpec.

(** C2. For every phase and every elapsed time [t] (in particular every
    [t >= 0]) the year computed by the [switch] equals the formula of the
    phase: 2025; 2025 + 100 t; 3025 + 2.5 t; 3075 + 0.1 t; 0; t^6. *)
Theorem current_year_formula (p : SimulationPhase) (t : Q) :
  currentYear p t == year_formula p t.
Proof.
  destruct p; unfold currentYear, year_formula, JS.Math_pow;
    try reflexivity; ring.
Qed.

Lemma Qpower_positive_mono (n : positive) (a b : Q) :
  0 <= a -> a <= b -> Qpower_positive a n <= Qpower_positive b n.
Proof.
  intros Ha Hab. induction n as [| n IH] using Pos.peano_ind.
  - exact Hab.
  - rewrite <- !Pos.add_1_r, !Qpower_plus_positive.
    apply Qmult_le_compat_nonneg; split; auto.
    now apply Qpower_pos_positive.
Qed.

(** C9. The rebirth year, [Math.pow(t, 6)], is non-decreasing on
    [t >= 0]: for all [0 <= t1 <= t2] the year at [t1] is at most the year
    at [t2]. *)
Theorem rebirth_year_monotone (t1 t2 : Q) :
  0 <= t1 -> t1 <= t2 ->
  currentYear rebirth t1 <= currentYear rebirth t2.
Proof.
  intros H0 H12. unfold currentYear, JS.Math_pow. cbn [Qpower].
  now apply Qpower_positive_mono.
Qed.

Lemma rebirth_year_monotone_example :
  currentYear rebirth 1.5 <= currentYear rebirth 2.
Proof.
  apply (rebirth_year_monotone 1.5 2); unfold Qle; simpl; lia.
Defined.

(** Off [t >= 0] the sixth power decreases. *)
Example rebirth_year_negative_side :
  currentYear rebirth (-1) < currentYear rebirth (-2).
Proof. reflexivity. Qed.

End YearMapper.

(** ** The stability score *)

Section Stability.

(** The score before the clamp, by phase. *)
Lemma stability_by_phase (ph : SimulationPhase) (yr : Q) :
  App.stability ph yr =
    Qmax 0 (Qmin 100
      match ph with
      | stable => 100
      | approach => 95 - ((yr - 2025) / 20)
      | interaction => 80 - ((yr - 3025) * 2)
      | consumption => 20 - ((yr - 3075) * 2)
      | void => 0
      | rebirth => 100
      end).
Proof. destruct ph; reflexivity. Qed.

Lemma clamp_bounds (x : Q) : 0 <= Qmax 0 (Qmin 100 x) <= 100.
Proof.
  split.
  - apply Q.le_max_l.
  - apply Q.max_lub; [discriminate | apply Q.le_min_l].
Qed.

(** C3. For every phase and every year, however large or negative, the
    stability score lies in the closed interval from 0 to 100. *)
Theorem stability_in_range (ph : SimulationPhase) (yr : Q) :
  0 <= App.stability ph yr <= 100.
Proof. rewrite stability_by_phase. apply clamp_bounds. Qed.

Example stability_extreme_years :
  App.stability interaction 1000000000000 == 0
  /\ App.stability interaction (-1000000000000) == 100
  /\ App.stability approach 2525 == 70
  /\ App.stability consumption 3080 == 10.
Proof. repeat split. Qed.

End Stability.

(** ** The stability graph *)

Section Graph.

Import App.

Lemma append_point_length (pt : GraphPoint.t) (curr : list GraphPoint.t) :
  (List.length (append_point pt curr) <= 50)%nat.
Proof.
  unfold append_point.
  destruct (Nat.ltb_spec 50 (List.length (curr ++ [pt]))) as [Hlt | Hle].
  - rewrite length_skipn. lia.
  - exact Hle.
Qed.

(** Below capacity the point is added at the end; a full graph loses
    its oldest point. *)
Lemma append_point_below (pt : GraphPoint.t) (curr : list GraphPoint.t) :
  (List.length curr < 50)%nat -> append_point pt curr = curr ++ [pt].
Proof.
  intros H. unfold append_point.
  destruct (Nat.ltb_spec 50 (List.length (curr ++ [pt]))) as [Hlt | Hle];
    [| reflexivity].
  rewrite length_app in Hlt. cbn in Hlt. lia.
Qed.

Lemma append_point_full (pt : GraphPoint.t) (curr : list GraphPoint.t) :
  List.length curr = 50%nat -> append_point pt curr = tl curr ++ [pt].
Proof.
  intros H. unfold append_point.
  rewrite length_app, H. cbn [List.length Nat.add Nat.ltb Nat.leb Nat.sub].
  destruct curr as [| x curr]; [discriminate H | reflexivity].
Qed.

Lemma sampling_false (ph : SimulationPhase) (now : Z) (st : AppState) :
  ph = stable \/ (now - lastUpdateRef st <= 500)%Z ->
  sampling ph now st = false.
Proof.
  unfold sampling. intros [-> | H].
  - apply andb_false_r.
  - apply andb_false_intro1. now apply Z.ltb_ge.
Qed.

Lemma handleUpdate_length (ph : SimulationPhase) (yr : Q) (now : Z)
    (st : AppState) :
  (List.length (graphData st) <= 50)%nat ->
  (List.length (graphData (handleUpdate ph yr now st)) <= 50)%nat.
Proof.
  intros H. unfold handleUpdate, graph_updates. cbn [graphData].
  rewrite apply_queue_app.
  destruct (reseeding ph st); cbn.
  - lia.
  - destruct (sampling ph now st); cbn; [apply append_point_length | exact H].
Qed.

(** From the empty graph of the initial state, no run of updates ever
    takes the graph past 50 points. *)
Lemma run_length (calls : list (SimulationPhase * Q * Z)) (st : AppState) :
  (List.length (graphData st) <= 50)%nat ->
  (List.length (graphData (run calls st)) <= 50)%nat.
Proof.
  unfold run. revert st. induction calls as [| c calls IH]; intros st H.
  - exact H.
  - cbn [fold_left]. apply IH. now apply handleUpdate_length.
Qed.

Lemma handleUpdate_records_phase (ph : SimulationPhase) (yr : Q) (now : Z)
    (st : AppState) :
  Types.phase (params (handleUpdate ph yr now st)) = ph.
Proof.
  unfold handleUpdate. cbn [params].
  destruct (phase_eqb_spec (Types.phase (params st)) ph) as [E | _];
    cbn [negb orb]; [| reflexivity].
  destruct (JS.gt _ _); [reflexivity | exact E].
Qed.

Lemma reseeding_iff (ph : SimulationPhase) (st : AppState) :
  reseeding ph st = true <-> ph = rebirth /\ Types.phase (params st) = void.
Proof.
  unfold reseeding. rewrite andb_true_iff.
  split; intros [H1 H2]; split;
    first [ now destruct (phase_eqb_spec ph rebirth)
          | now destruct (phase_eqb_spec (Types.phase (params st)) void)
          | subst; apply phase_eqb_refl
          | rewrite H2; reflexivity ].
Qed.

(** C7. The graph never holds more than 50 points, and a sample added
    to a full graph evicts the oldest one; while the phase is stable, or
    within 500 ms of the previous sample, no sample is queued, so the only
    update left is the reseed and the time of the last sample is kept; on
    the call that reports rebirth while the recorded phase (the phase of
    the previous call) is void the graph becomes exactly the one seed
    point. *)
Theorem graph_capped_throttled_reseeded (ph : SimulationPhase) (yr : Q)
    (now : Z) (st : AppState) :
  let st' := handleUpdate ph yr now st in
  (forall calls : list (SimulationPhase * Q * Z),
      (List.length (graphData (run calls initial)) <= 50)%nat)
  /\ ((List.length (graphData st) <= 50)%nat ->
      (List.length (graphData st') <= 50)%nat)
  /\ (forall pt curr, List.length curr = 50%nat ->
      append_point pt curr = tl curr ++ [pt])
  /\ (ph = stable -> graphData st' = graphData st)
  /\ (ph = stable \/ (now - lastUpdateRef st <= 500)%Z ->
      graph_updates ph yr now st = (if reseeding ph st then [reseed] else [])
      /\ lastUpdateRef st' = lastUpdateRef st
      /\ (~ (ph = rebirth /\ Types.phase (params st) = void) ->
          graphData st' = graphData st))
  /\ (ph = rebirth -> Types.phase (params st) = void ->
      graphData st' = [seed])
  /\ Types.phase (params st') = ph.
Proof.
  intros st'. subst st'.
  split; [| split; [| split; [| split; [| split; [| split]]]]].
  - intros calls. apply run_length. cbn. lia.
  - apply handleUpdate_length.
  - intros pt curr. apply append_point_full.
  - intros ->. unfold handleUpdate, graph_updates. cbn [graphData].
    now rewrite (sampling_false stable now st (or_introl eq_refl)).
  - intros H. unfold handleUpdate, graph_updates.
    cbn [graphData lastUpdateRef]. rewrite (sampling_false _ _ _ H).
    cbn [app]. repeat split. intros Hr.
    destruct (reseeding ph st) eqn:E; [| reflexivity].
    apply reseeding_iff in E. contradiction.
  - intros -> Hv. unfold handleUpdate, graph_updates. cbn [graphData].
    rewrite apply_queue_app. unfold reseeding. rewrite Hv. reflexivity.
  - apply handleUpdate_records_phase.
Qed.

(** A sample is taken more than 500 ms after the previous one outside
    the stable phase, and then the clock of the last sample moves. *)
Example graph_sample_taken :
  let st := mkApp (playingParams 1.0) [] 1000%Z in
  graphData (handleUpdate approach 2125.7 1501 st)
    = [GraphPoint.mk (inject_Z 2125) (stability approach 2125.7)]
  /\ lastUpdateRef (handleUpdate approach 2125.7 1501 st) = 1501%Z
  /\ graphData (handleUpdate approach 2125.7 1500 st) = [].
Proof. repeat split. Qed.

End Graph.

(** ** The Sun in the consumption phase and the accretion disk *)

Section Consumption.

Import Sun IntruderBlackHole.

(** Division by the literal 5 is multiplication by one fifth. *)
Ltac fifths :=
  repeat match goal with
         | |- context [?t / 5] => change (t / 5) with (t * (1 # 5))
         end.

Lemma consumption_scale_linear (t : Q) :
  0 <= t <= 5 -> consumption_scale t == 1 - t / 5.
Proof.
  intros [H0 H5]. unfold consumption_scale, JS.Math_max.
  apply Q.max_r. fifths. lra.
Qed.

Lemma consumption_scale_zero (t : Q) : 5 <= t -> consumption_scale t == 0.
Proof.
  intros H. unfold consumption_scale, JS.Math_max. apply Q.max_l. fifths. lra.
Qed.

Lemma consumption_scale_decreasing (t1 t2 : Q) :
  t1 <= t2 -> consumption_scale t2 <= consumption_scale t1.
Proof.
  intros H. unfold consumption_scale, JS.Math_max.
  apply Q.max_le_compat_l. fifths. lra.
Qed.

(** C5. In the consumption phase the Sun's scale is [max(0, 1 - t/5)]:
    1 at [t = 0], linear on [0 <= t <= 5], 0 at [t = 5] and after, never
    increasing; the amount handed to [onConsume] is [1 - scale] (1 at
    [t = 5]); and the accretion disk is drawn with outer radius 2 plus 4
    times that amount (6 when it is 1). *)
Theorem sun_consumption (t dist c : Q) :
  let sc := consumption_scale t in
  let consumed := sunConsumed_after consumption t dist c in
  option_map scale (frame consumption t dist) = Some (sc, sc, sc)
  /\ sc = Qmax 0 (1 - t / 5)
  /\ consumption_scale 0 == 1
  /\ consumption_scale 5 == 0
  /\ (0 <= t <= 5 -> sc == 1 - t / 5)
  /\ (forall t', t <= t' -> consumption_scale t' <= sc)
  /\ consumed = 1 - sc
  /\ sunConsumed_after consumption 5 dist c == 1
  /\ accretionDisk consumption consumed = Some (2, 2 + consumed * 4)
  /\ 2 + sunConsumed_after consumption 5 dist c * 4 == 6.
Proof.
  cbv zeta.
  split; [reflexivity |]. split; [reflexivity |].
  split; [reflexivity |]. split; [reflexivity |].
  split; [apply consumption_scale_linear |].
  split; [intros t'; apply consumption_scale_decreasing |].
  split; [reflexivity |]. split; [reflexivity |].
  split; reflexivity.
Qed.

Example sun_half_consumed :
  consumption_scale 2.5 == 0.5
  /\ accretionDisk consumption (sunConsumed_after consumption 2.5 8 0)
     = Some (2, 2 + (1 - consumption_scale 2.5) * 4)
  /\ 2 + (1 - consumption_scale 2.5) * 4 == 4.
Proof. repeat split. Qed.

End Consumption.

(** ** Planets: the destroyed flag *)

Section PlanetDestruction.

Import Planet.

(** A destroyed planet's callback returns at its first line: the state is
    left as it is, in every phase. *)
Lemma frame_destroyed (data : CosmicObject) (ph : SimulationPhase)
    (timer delta : Q) (st : OrbitState) :
  destroyed st = true -> frame data ph timer delta st = st.
Proof.
  intros H. unfold frame, frame_updates. rewrite H, orb_true_r. reflexivity.
Qed.

(** The flag after a frame of a planet that was not destroyed. *)
Lemma frame_live (data : CosmicObject) (ph : SimulationPhase)
    (timer delta : Q) (st : OrbitState) :
  destroyed st = false ->
  destroyed (frame data ph timer delta st) =
    match ph with
    | interaction => String.eqb (name data) "Venus" && JS.gt timer 5
    | consumption => JS.lt (JS.lerp (dist st) 0 (delta * 0.5)) 2
    | _ => false
    end.
Proof.
  intros H. unfold frame, frame_updates, ref_current, rendered.
  rewrite H. destruct ph; cbn [phase_eqb orb negb andb app]; try assumption.
  - destruct (String.eqb (name data) "Venus" && JS.gt timer 5);
      cbn; [reflexivity | assumption].
  - destruct (JS.lt (JS.lerp (dist st) 0 (delta * 0.5)) 2);
      cbn; [reflexivity | assumption].
Qed.

Lemma run_destroyed (data : CosmicObject)
    (frames : list (SimulationPhase * Q * Q)) (st : OrbitState) :
  destroyed st = true -> run data frames st = st.
Proof.
  intros H. unfold run. induction frames as [| f frames IH]; cbn [fold_left].
  - reflexivity.
  - now rewrite (frame_destroyed _ _ _ _ _ H).
Qed.

(** C4, as amended.  In a frame that finds Venus not destroyed, Venus is
    marked destroyed exactly when the phase is interaction and the elapsed
    time exceeds 5 s, or the phase is consumption and the decayed orbital
    radius is below 2 (the rule of every planet).  Once destroyed, Venus
    stays destroyed and is not rendered after any later frames of the
    cycle, that is, frames before the phase is stable again. *)
Theorem venus_destroyed_one_way (data : CosmicObject) :
  name data = "Venus"%string ->
  (forall ph timer delta st,
      destroyed st = false ->
      (destroyed (frame data ph timer delta st) = true <->
       (ph = interaction /\ 5 < timer)
       \/ (ph = consumption /\ JS.lerp (dist st) 0 (delta * 0.5) < 2)))
  /\ (forall frames st,
      destroyed st = true ->
      Forall (fun f => fst (fst f) <> stable) frames ->
      destroyed (run data frames st) = true
      /\ forall ph, rendered ph (run data frames st) = false).
Proof.
  intros Hname. split.
  - intros ph timer delta st Hlive. rewrite (frame_live _ _ _ _ _ Hlive).
    rewrite Hname, String.eqb_refl. cbn [andb].
    destruct ph; try rewrite gt_true_iff; try rewrite lt_true_iff;
      (split;
       [ intros H; try discriminate H; auto
       | intros [[E H] | [E H]]; try discriminate E; auto ]).
  - intros frames st Hd _. rewrite (run_destroyed _ _ _ Hd).
    split; [exact Hd |]. intros ph. unfold rendered. now rewrite Hd.
Qed.

(** Venus at 5.5 s of interaction, and a destroyed Venus carried through
    the rest of the cycle. *)
Lemma venus_destroyed_one_way_example :
  destroyed (frame VENUS interaction 5.5 0.016 (initial VENUS)) = true
  /\ rendered rebirth
       (run VENUS [(interaction, 6, 0.016); (consumption, 1, 0.016);
                   (void, 1, 0.016); (rebirth, 1, 0.016)]
            (mkOrbit 16 2 true)) = false.
Proof.
  destruct (venus_destroyed_one_way VENUS eq_refl) as [Hmark Hstay]. split.
  - apply Hmark; [reflexivity |]. left. split; reflexivity.
  - apply Hstay; [reflexivity |].
    repeat constructor; cbn; discriminate.
Defined.

(** C4, as stated, fails: the consumption rule marks Venus as well.  A
    Venus that reaches consumption at its full radius 16 and sees a delta
    of 2 s has radius [lerp(16, 0, 1) = 0 < 2] and is marked destroyed,
    although the phase is not interaction. *)
Lemma venus_destroyed_in_consumption :
  destroyed (initial VENUS) = false
  /\ destroyed (frame VENUS consumption 0 2 (initial VENUS)) = true
  /\ ~ (destroyed (frame VENUS consumption 0 2 (initial VENUS)) = true <->
        consumption = interaction /\ 5 < 0).
Proof.
  split; [reflexivity |]. split; [reflexivity |].
  intros [H _]. destruct (H eq_refl) as [E _]. discriminate E.
Qed.

(** The sequencer can step over the whole interaction window in which
    Venus is watched: from 4 s, an advance of 17.5 s (a 3.5 s frame at
    time scale 5) leaves interaction without any frame seeing more than
    5 s. *)
Example interaction_window_skipped :
  SceneLogic.frame (playingParams 5) 3.5 (SceneLogic.mkScene interaction 4)
  = SceneLogic.mkScene consumption 0.
Proof. reflexivity. Qed.

(** The reset written for the stable phase sits behind the early return
    on [orbitState.destroyed]: for a destroyed planet no updater is queued,
    the reset included. *)
Lemma reset_behind_early_return (data : CosmicObject) (timer delta : Q)
    (st : OrbitState) :
  destroyed st = true ->
  frame_updates data stable timer delta st = []
  /\ destroyed (frame data stable timer delta st) = true.
Proof.
  intros H. split.
  - unfold frame_updates. now rewrite H, orb_true_r.
  - now rewrite (frame_destroyed _ _ _ _ _ H).
Qed.

End PlanetDestruction.

(** * Further properties of the code *)

(** ** More on the sequencer and the mappers *)

Section SequencerRuns.

Import SceneLogic SequencerSpec.

Lemma threshold_positive (p : SimulationPhase) : 0 < threshold p.
Proof. destruct p; reflexivity. Qed.

Lemma threshold_at_most_20 (p : SimulationPhase) : threshold p <= 20.
Proof. destruct p; discriminate. Qed.

Lemma frame_keeps_timer_in_phase (params : SimulationState) (delta : Q)
    (s : SceneState) :
  0 <= delta -> 0 <= timeScale params ->
  0 <= timer s <= threshold (phase s) ->
  0 <= timer (frame params delta s) <= threshold (phase (frame params delta s)).
Proof.
  intros Hd Hs [H0 Ht].
  pose proof (frame_dt_nonneg params delta Hd Hs) as Hdt.
  unfold frame. destruct (isPlaying params); cbn [negb]; [| now split].
  rewrite advance_table.
  destruct (JS.gt _ _) eqn:E; cbn [phase timer].
  - split; [apply Qle_refl | apply Qlt_le_weak, threshold_positive].
  - apply gt_false_iff in E. split; [lra | exact E].
Qed.

(** X1. Started from the initial state and fed non-negative deltas and
    time scales, the sequencer keeps the elapsed time between 0 and the
    threshold of the current phase after every frame, paused or playing. *)
Theorem run_keeps_timer_in_phase (frames : list (SimulationState * Q)) :
  Forall (fun f => 0 <= snd f /\ 0 <= timeScale (fst f)) frames ->
  0 <= timer (run frames initial)
  /\ timer (run frames initial) <= threshold (phase (run frames initial)).
Proof.
  intros H. unfold run.
  assert (G : forall s, 0 <= timer s <= threshold (phase s) ->
              0 <= timer (fold_left (fun acc f => frame (fst f) (snd f) acc)
                                    frames s)
                <= threshold
                     (phase (fold_left (fun acc f => frame (fst f) (snd f) acc)
                                       frames s))).
  { induction H as [| f frames [Hd Hs] _ IH]; intros s Hs0; cbn [fold_left].
    - exact Hs0.
    - apply IH. now apply frame_keeps_timer_in_phase. }
  apply G. cbn. split; discriminate.
Qed.

Lemma run_keeps_timer_in_phase_example :
  let frames := [(playingParams 1.0, 4.9); (playingParams 2.0, 0.2);
                 (pausedParams 5, 3); (playingParams 0, 7)] in
  0 <= timer (run frames initial)
  /\ timer (run frames initial) <= threshold (phase (run frames initial)).
Proof.
  apply run_keeps_timer_in_phase.
  repeat constructor; cbn; discriminate.
Defined.

Lemma long_step (s : SceneState) (dt : Q) :
  0 <= timer s -> 20 < dt -> advance s dt = mkScene (next (phase s)) 0.
Proof.
  intros H0 Hdt. destruct s as [p e]. cbn [phase timer] in *.
  apply advance_exceeds. pose proof (threshold_at_most_20 p). lra.
Qed.

(** X2. A step longer than every threshold (more than 20 s) moves
    exactly one phase forward and drops the overshoot, so six such steps
    bring the sequencer back to the phase it started in, at elapsed 0: a
    frame never skips a phase, however long it is. *)
Theorem six_long_steps_complete_the_cycle (s : SceneState) (dt : Q) :
  0 <= timer s -> 20 < dt ->
  advance s dt = mkScene (next (phase s)) 0
  /\ Nat.iter 6 (fun x => advance x dt) s = mkScene (phase s) 0.
Proof.
  intros H0 Hdt. split; [now apply long_step |].
  unfold Nat.iter, nat_rect.
  rewrite (long_step s dt H0 Hdt).
  repeat (rewrite (long_step (mkScene _ 0) dt)
            by first [apply Qle_refl | exact Hdt];
          cbn [phase]).
  f_equal. apply next_is_a_six_cycle.
Qed.

Lemma six_long_steps_complete_the_cycle_example :
  advance (mkScene interaction 7) 100 = mkScene (next interaction) 0
  /\ Nat.iter 6 (fun x => advance x 100) (mkScene interaction 7)
     = mkScene interaction 0.
Proof.
  apply (six_long_steps_complete_the_cycle (mkScene interaction 7) 100);
    cbn; [discriminate | reflexivity].
Defined.

(** X3. In every phase the simulated year is a non-decreasing function
    of the elapsed time on [t >= 0]. *)
Theorem year_monotone_in_every_phase (p : SimulationPhase) (t1 t2 : Q) :
  0 <= t1 -> t1 <= t2 -> currentYear p t1 <= currentYear p t2.
Proof.
  intros H0 H12. destruct p; unfold currentYear; try lra.
  unfold JS.Math_pow. cbn [Qpower]. now apply Qpower_positive_mono.
Qed.

Lemma year_monotone_in_every_phase_example :
  currentYear interaction 3 <= currentYear interaction 12.5.
Proof.
  apply (year_monotone_in_every_phase interaction 3 12.5);
    unfold Qle; simpl; lia.
Defined.

(** X4. From stable through approach and interaction to consumption the
    year never goes back across a transition: any year the sequencer can
    show in one of the first three phases (elapsed time within the
    threshold) is at most every year of the phase that follows. *)
Theorem year_never_goes_back_before_the_void (p : SimulationPhase)
    (t t' : Q) :
  In p [stable; approach; interaction] ->
  0 <= t <= threshold p -> 0 <= t' ->
  currentYear p t <= currentYear (next p) t'.
Proof.
  intros Hp [H0 Ht] H0'.
  destruct Hp as [<- | [<- | [<- | []]]];
    cbn [threshold] in Ht; unfold currentYear; cbn [next]; lra.
Qed.

Lemma year_never_goes_back_before_the_void_example :
  currentYear approach 10 <= currentYear (next approach) 0.
Proof.
  apply (year_never_goes_back_before_the_void approach 10 0).
  - cbn. auto.
  - cbn. split; discriminate.
  - discriminate.
Defined.

End SequencerRuns.

(** ** More on the stability score *)

Section StabilityShape.

Import SceneLogic.

(** Division by a literal is multiplication by its inverse. *)
Ltac literal_div :=
  repeat match goal with
         | |- context [?t / 5] => change (t / 5) with (t * (1 # 5))
         | |- context [?t / 10] => change (t / 10) with (t * (1 # 10))
         | |- context [?t / 20] => change (t / 20) with (t * (1 # 20))
         end.

Lemma clamp_inside (x : Q) : 0 <= x <= 100 -> Qmax 0 (Qmin 100 x) == x.
Proof.
  intros [H0 H1]. rewrite (Q.min_r 100 x H1). now apply Q.max_r.
Qed.

Lemma clamp_below (x : Q) : x <= 0 -> Qmax 0 (Qmin 100 x) == 0.
Proof.
  intros H. apply Q.max_l.
  apply Qle_trans with x; [apply Q.le_min_r | exact H].
Qed.

Lemma clamp_monotone (x y : Q) :
  x <= y -> Qmax 0 (Qmin 100 x) <= Qmax 0 (Qmin 100 y).
Proof.
  intros H. apply Q.max_le_compat_l. now apply Q.min_le_compat_l.
Qed.

(** X5. In every phase the stability score never rises with the year:
    a later year gives a score that is at most the score of an earlier
    one, the clamp included. *)
Theorem stability_never_rises_with_the_year (ph : SimulationPhase)
    (yr1 yr2 : Q) :
  yr1 <= yr2 -> App.stability ph yr2 <= App.stability ph yr1.
Proof.
  intros H. rewrite !stability_by_phase. apply clamp_monotone.
  destruct ph; literal_div; lra.
Qed.

Lemma stability_never_rises_with_the_year_example :
  App.stability interaction 3050 <= App.stability interaction 3030.
Proof.
  apply (stability_never_rises_with_the_year interaction 3030 3050).
  discriminate.
Defined.

(** X6. The score as a function of the elapsed time, through the year
    mapper: it falls from 95 by 5 per second in approach, from 80 by 5 per
    second in interaction until it reaches 0 at 16 s and stays there, and
    from 20 by 0.2 per second in consumption. *)
Theorem stability_of_elapsed_time (t : Q) :
  (0 <= t <= 10 ->
   App.stability approach (currentYear approach t) == 95 - 5 * t)
  /\ (0 <= t <= 16 ->
      App.stability interaction (currentYear interaction t) == 80 - 5 * t)
  /\ (16 <= t ->
      App.stability interaction (currentYear interaction t) == 0)
  /\ (0 <= t <= 10 ->
      App.stability consumption (currentYear consumption t) == 20 - 0.2 * t).
Proof.
  rewrite !stability_by_phase. unfold currentYear.
  split; [| split; [| split]]; intros H.
  - rewrite clamp_inside; literal_div; lra.
  - rewrite clamp_inside; lra.
  - apply clamp_below. lra.
  - rewrite clamp_inside; lra.
Qed.

End StabilityShape.

(** ** More on the stability graph and the stored parameters *)

Section AppState.

Import App.

Lemma stability_in_range_of_score (ph : SimulationPhase) (yr : Q) :
  0 <= stability ph yr <= 100.
Proof. rewrite stability_by_phase. apply clamp_bounds. Qed.

Lemma handleUpdate_controls (ph : SimulationPhase) (yr : Q) (now : Z)
    (st : AppState) :
  isPlaying (params (handleUpdate ph yr now st)) = isPlaying (params st)
  /\ timeScale (params (handleUpdate ph yr now st)) = timeScale (params st).
Proof.
  unfold handleUpdate. cbn [params].
  destruct (_ || _); split; reflexivity.
Qed.

(** X7. Reports from the scene never touch the controls: after any run
    of [handleUpdate] calls the play flag and the time scale are the ones
    the run started with. *)
Theorem updates_never_touch_the_controls
    (calls : list (SimulationPhase * Q * Z)) (st : AppState) :
  isPlaying (params (run calls st)) = isPlaying (params st)
  /\ timeScale (params (run calls st)) = timeScale (params st).
Proof.
  unfold run. revert st. induction calls as [| c calls IH]; intros st.
  - split; reflexivity.
  - cbn [fold_left].
    destruct (IH (handleUpdate (fst (fst c)) (snd (fst c)) (snd c) st))
      as [E1 E2].
    destruct (handleUpdate_controls (fst (fst c)) (snd (fst c)) (snd c) st)
      as [C1 C2].
    split; [exact (eq_trans E1 C1) | exact (eq_trans E2 C2)].
Qed.

(** X8. After every report the stored phase is the reported one and the
    stored year is within 0.1 of the reported year: the parameters are
    left untouched only for a change of the year of at most 0.1 in the
    same phase. *)
Theorem stored_year_tracks_the_report (ph : SimulationPhase) (yr : Q)
    (now : Z) (st : AppState) :
  let st' := handleUpdate ph yr now st in
  Types.phase (params st') = ph
  /\ Qabs (year (params st') - yr) <= 0.1
  /\ (params st' <> params st -> year (params st') = yr).
Proof.
  intros st'. subst st'.
  split; [apply handleUpdate_records_phase |].
  unfold handleUpdate. cbn [params].
  destruct (phase_eqb (Types.phase (params st)) ph); cbn [negb orb].
  - destruct (JS.gt _ _) eqn:E.
    + cbn [year]. split; [| reflexivity].
      apply Qabs_Qle_condition. split; lra.
    + apply gt_false_iff in E. split; [exact E |].
      intros H. now contradiction H.
  - cbn [year]. split; [| reflexivity].
    apply Qabs_Qle_condition. split; lra.
Qed.

(** X9. The time of the last sample never goes back, and it moves only
    to the current clock, only outside the stable phase, and only when
    more than 500 ms have passed since the sample before. *)
Theorem samples_are_more_than_500ms_apart (ph : SimulationPhase) (yr : Q)
    (now : Z) (st : AppState) :
  let st' := handleUpdate ph yr now st in
  (lastUpdateRef st <= lastUpdateRef st')%Z
  /\ (lastUpdateRef st' <> lastUpdateRef st ->
      lastUpdateRef st' = now
      /\ (500 < now - lastUpdateRef st)%Z
      /\ ph <> stable).
Proof.
  intros st'. subst st'. unfold handleUpdate. cbn [lastUpdateRef].
  unfold sampling.
  destruct (Z.ltb_spec 500 (now - lastUpdateRef st)) as [Hlt | Hle];
    cbn [andb].
  - destruct (phase_eqb_spec ph stable) as [-> | Hne]; cbn [negb].
    + split; [lia |]. intros H. now contradiction H.
    + split; [lia |]. intros _. repeat split; auto.
  - split; [lia |]. intros H. now contradiction H.
Qed.

Lemma append_point_Forall (P : GraphPoint.t -> Prop) (pt : GraphPoint.t)
    (curr : list GraphPoint.t) :
  P pt -> Forall P curr -> Forall P (append_point pt curr).
Proof.
  intros Hpt Hc. unfold append_point.
  assert (Hall : Forall P (curr ++ [pt])).
  { apply Forall_app. split; [exact Hc | now constructor]. }
  destruct (_ <? _)%nat; [| exact Hall].
  rewrite <- (firstn_skipn (List.length (curr ++ [pt]) - 50) (curr ++ [pt]))
    in Hall.
  now apply Forall_app in Hall.
Qed.

Lemma handleUpdate_points_in_range (ph : SimulationPhase) (yr : Q) (now : Z)
    (st : AppState) :
  Forall (fun pt => 0 <= GraphPoint.stability pt <= 100) (graphData st) ->
  Forall (fun pt => 0 <= GraphPoint.stability pt <= 100)
         (graphData (handleUpdate ph yr now st)).
Proof.
  intros H. unfold handleUpdate, graph_updates. cbn [graphData].
  rewrite apply_queue_app.
  destruct (reseeding ph st); cbn.
  - repeat constructor; discriminate.
  - destruct (sampling ph now st); cbn; [| exact H].
    apply append_point_Forall; [| exact H].
    cbn [GraphPoint.stability]. apply stability_in_range_of_score.
Qed.

End AppState.

Section GraphContents.

Import App.

(** X10. Every point the graph ever holds has a stability between 0
    and 100, the range of the chart's axis: this holds after any run of
    reports from the initial state. *)
Theorem graph_points_stay_on_the_axis
    (calls : list (SimulationPhase * Q * Z)) :
  Forall (fun pt => 0 <= GraphPoint.stability pt <= 100)
         (graphData (run calls initial)).
Proof.
  unfold run.
  assert (G : forall st,
             Forall (fun pt => 0 <= GraphPoint.stability pt <= 100)
                    (graphData st) ->
             Forall (fun pt => 0 <= GraphPoint.stability pt <= 100)
                    (graphData
                       (fold_left
                          (fun acc c => handleUpdate (fst (fst c))
                                          (snd (fst c)) (snd c) acc)
                          calls st))).
  { induction calls as [| c calls IH]; intros st H; cbn [fold_left].
    - exact H.
    - apply IH. now apply handleUpdate_points_in_range. }
  apply G. constructor.
Qed.

(** X11. Appending a sample keeps the newest points in their order:
    the result is a tail of the old graph followed by the new point, and
    its length is the smaller of 50 and the old length plus one. *)
Theorem append_point_keeps_the_newest (pt : GraphPoint.t)
    (curr : list GraphPoint.t) :
  (exists dropped kept,
      curr = dropped ++ kept /\ append_point pt curr = kept ++ [pt])
  /\ List.length (append_point pt curr) = Nat.min 50 (S (List.length curr)).
Proof.
  unfold append_point.
  assert (Hlen : List.length (curr ++ [pt]) = S (List.length curr))
    by (rewrite length_app; cbn; lia).
  rewrite Hlen.
  destruct (Nat.ltb_spec 50 (S (List.length curr))) as [Hlt | Hle].
  - split.
    + exists (firstn (S (List.length curr) - 50) curr),
             (skipn (S (List.length curr) - 50) curr).
      split; [symmetry; apply firstn_skipn |].
      rewrite skipn_app.
      replace (S (List.length curr) - 50 - List.length curr)%nat with 0%nat
        by lia.
      reflexivity.
    + rewrite length_skipn, Hlen. lia.
  - split.
    + exists [], curr. split; reflexivity.
    + rewrite Hlen. lia.
Qed.

(** X12. Right after the reseed at the start of rebirth the graph has
    a single point, and the dashboard, which draws the chart only for more
    than one point, hides it; one sampled report later the chart is back. *)
Theorem chart_hidden_after_reseed (yr : Q) (now : Z) (st : AppState)
    (ph : SimulationPhase) (yr' : Q) (now' : Z) :
  Types.phase (params st) = void ->
  let st1 := handleUpdate rebirth yr now st in
  Dashboard.chartShown (graphData st1) = false
  /\ (sampling ph now' st1 = true ->
      Dashboard.chartShown (graphData (handleUpdate ph yr' now' st1)) = true).
Proof.
  intros Hv st1.
  assert (E1 : graphData st1 = [seed]).
  { subst st1. unfold handleUpdate, graph_updates. cbn [graphData].
    rewrite apply_queue_app. unfold reseeding. rewrite Hv. reflexivity. }
  assert (P1 : Types.phase (params st1) = rebirth)
    by apply handleUpdate_records_phase.
  split.
  - now rewrite E1.
  - intros Hs. unfold handleUpdate, graph_updates. cbn [graphData].
    rewrite Hs. unfold reseeding. rewrite P1, andb_false_r, E1.
    reflexivity.
Qed.

Lemma chart_hidden_after_reseed_example :
  let st := mkApp (mkParams 20 36 1.0 true void 1.0 0) [] 1000%Z in
  let st1 := handleUpdate rebirth 0 1200 st in
  Dashboard.chartShown (graphData st1) = false
  /\ (sampling rebirth 1600 st1 = true ->
      Dashboard.chartShown (graphData (handleUpdate rebirth 0.5 1600 st1))
      = true).
Proof.
  apply (chart_hidden_after_reseed 0 1200
           (mkApp (mkParams 20 36 1.0 true void 1.0 0) [] 1000%Z)
           rebirth 0.5 1600).
  reflexivity.
Defined.

End GraphContents.

(** ** The dashboard *)

Section DashboardFacts.

Import SceneLogic Dashboard.

(** X13. The play button is its own inverse and changes the play flag
    only: the flag is negated and the energy density, the volume, the
    coupling constant, the phase, the time scale and the year are the ones
    it was given; and while it has paused a playing simulation, any frames
    leave the sequencer where it was, so that pressing it again resumes
    from the very state of the pause. *)
Theorem play_button_round_trip (p : SimulationState)
    (deltas : list Q) (s : SceneState) :
  togglePlay (togglePlay p) = p
  /\ isPlaying (togglePlay p) = negb (isPlaying p)
  /\ (energyDensity (togglePlay p) = energyDensity p
      /\ volume (togglePlay p) = volume p
      /\ lambdaM (togglePlay p) = lambdaM p
      /\ Types.phase (togglePlay p) = Types.phase p
      /\ timeScale (togglePlay p) = timeScale p
      /\ Types.year (togglePlay p) = Types.year p)
  /\ (isPlaying p = true ->
      run (map (fun d => (togglePlay p, d)) deltas) s = s).
Proof.
  split; [| split; [| split]].
  - destruct p. unfold togglePlay. cbn. now rewrite negb_involutive.
  - reflexivity.
  - repeat split.
  - intros Hp. unfold run.
    induction deltas as [| d deltas IH]; cbn [map fold_left fst snd].
    + reflexivity.
    + rewrite frame_paused; [exact IH |].
      cbn. now rewrite Hp.
Qed.

(** X14. Every time scale the slider can hold, from 0.1 to 5, is used
    as it is (the fallback to 1 never applies), so a frame of a
    non-negative delta advances the sequencer by between a tenth of and
    five times that delta. *)
Theorem slider_time_scale_is_used_as_is (params : SimulationState)
    (value delta : Q) :
  sliderMin <= value <= sliderMax ->
  frame_dt (setTimeScale params value) delta = delta * value
  /\ (0 <= delta ->
      0.1 * delta <= frame_dt (setTimeScale params value) delta <= 5 * delta).
Proof.
  unfold sliderMin, sliderMax. intros [Hlo Hhi].
  assert (E : frame_dt (setTimeScale params value) delta = delta * value).
  { unfold frame_dt, setTimeScale. cbn [timeScale].
    rewrite or_else_nonzero; [reflexivity |]. intros H. lra. }
  split; [exact E |].
  intros Hd. rewrite E. split; nra.
Qed.

Lemma slider_time_scale_is_used_as_is_example :
  frame_dt (setTimeScale (playingParams 1.0) 2.5) 0.016 = 0.016 * 2.5
  /\ (0 <= 0.016 ->
      0.1 * 0.016 <= frame_dt (setTimeScale (playingParams 1.0) 2.5) 0.016
                  <= 5 * 0.016).
Proof.
  apply (slider_time_scale_is_used_as_is (playingParams 1.0) 2.5 0.016).
  unfold sliderMin, sliderMax. split; discriminate.
Defined.

Lemma Qpower_positive_strict (n : positive) (a b : Q) :
  0 <= a -> a < b -> Qpower_positive a n < Qpower_positive b n.
Proof.
  intros Ha Hab. induction n as [| n IH] using Pos.peano_ind.
  - exact Hab.
  - rewrite <- !Pos.add_1_r, !Qpower_plus_positive.
    apply Qmult_lt_compat_nonneg; split; auto.
    now apply Qpower_pos_positive.
Qed.

(** X15. In rebirth the timeline caption follows the elapsed time
    through the sixth power: for [t >= 0] it reads Accretion exactly from
    10 s on, and before that Expansion or Cooling; in the void it reads
    Singularity whatever the year. *)
Theorem timeline_caption_in_rebirth (t yr : Q) :
  0 <= t ->
  (subtext (currentYear rebirth t) rebirth = "Accretion"%string <-> 10 <= t)
  /\ (t < 10 ->
      subtext (currentYear rebirth t) rebirth = "Expansion"%string
      \/ subtext (currentYear rebirth t) rebirth = "Cooling"%string)
  /\ subtext yr void = "Singularity"%string.
Proof.
  intros H0. unfold subtext, currentYear, JS.Math_pow.
  cbn [phase_eqb Qpower].
  assert (Hlow : t < 10 -> Qpower_positive t 6 < 1000000).
  { intros H. apply (Qpower_positive_strict 6 t 10 H0 H). }
  assert (Hhigh : 10 <= t -> 1000000 <= Qpower_positive t 6).
  { intros H. apply (Qpower_positive_mono 6 10 t); [discriminate | exact H]. }
  destruct (Qlt_le_dec t 10) as [Hlt | Hge].
  - specialize (Hlow Hlt). apply lt_true_iff in Hlow. rewrite Hlow.
    split; [| split; [| reflexivity]].
    + split; [| intros H; lra].
      destruct (JS.lt _ 1000); discriminate.
    + intros _. destruct (JS.lt _ 1000); auto.
  - specialize (Hhigh Hge).
    assert (E1 : JS.lt (Qpower_positive t 6) 1000000 = false)
      by now apply lt_false_iff.
    assert (E2 : JS.lt (Qpower_positive t 6) 1000 = false)
      by (apply lt_false_iff; lra).
    rewrite E1, E2. split; [| split; [| reflexivity]].
    + split; auto.
    + intros H. lra.
Qed.

Lemma timeline_caption_in_rebirth_example :
  (subtext (currentYear rebirth 12) rebirth = "Accretion"%string <-> 10 <= 12)
  /\ (12 < 10 ->
      subtext (currentYear rebirth 12) rebirth = "Expansion"%string
      \/ subtext (currentYear rebirth 12) rebirth = "Cooling"%string)
  /\ subtext 3075 void = "Singularity"%string.
Proof.
  apply (timeline_caption_in_rebirth 12 3075). discriminate.
Defined.

End DashboardFacts.

(** ** The motion of the intruder *)

Section IntruderPath.

Import IntruderMotion.

Variables sin cos : Q -> Q.

(** Division by a literal is multiplication by its inverse. *)
Ltac literal_div :=
  repeat match goal with
         | |- context [?t / 5] => change (t / 5) with (t * (1 # 5))
         | |- context [?t / 10] => change (t / 10) with (t * (1 # 10))
         | |- context [?t / 20] => change (t / 20) with (t * (1 # 20))
         | H : context [?t / 5] |- _ =>
             change (t / 5) with (t * (1 # 5)) in H
         | H : context [?t / 10] |- _ =>
             change (t / 10) with (t * (1 # 10)) in H
         | H : context [?t / 20] |- _ =>
             change (t / 20) with (t * (1 # 20)) in H
         end.




Lemma frame_keeps_origin (ph : SimulationPhase) (timer : Q)
    (bhPosition : Vector3) :
  In ph [consumption; void; rebirth; stable] ->
  fst (fst bhPosition) == 0 /\ snd (fst bhPosition) == 0
  /\ snd bhPosition == 0 ->
  fst (fst (frame sin cos ph timer bhPosition)) == 0
  /\ snd (fst (frame sin cos ph timer bhPosition)) == 0
  /\ snd (frame sin cos ph timer bhPosition) == 0.
Proof.
  intros Hph H0.
  destruct Hph as [<- | [<- | [<- | [<- | []]]]]; cbn; try exact H0;
    repeat split; try reflexivity; ring.
Qed.

(** X18. From consumption on the intruder rests at the origin: the
    consumption branch interpolates between two copies of the origin, so
    every timer gives the origin, as does the void; and in rebirth and
    stable, where the component renders nothing, the callback leaves the
    shared position as it was.  So after a consumption or void frame and
    any frames of these four phases the position that the Sun and the
    planets read is still the origin. *)
Theorem intruder_rests_at_origin (ph0 : SimulationPhase) (t0 : Q)
    (frames : list (SimulationPhase * Q)) (bhPosition : Vector3) :
  ph0 = consumption \/ ph0 = void ->
  Forall (fun f => In (fst f) [consumption; void; rebirth; stable]) frames ->
  let p := run sin cos ((ph0, t0) :: frames) bhPosition in
  fst (fst p) == 0 /\ snd (fst p) == 0 /\ snd p == 0.
Proof.
  intros Hph Hf p. subst p. unfold run. cbn [fold_left fst snd].
  assert (H0 : fst (fst (frame sin cos ph0 t0 bhPosition)) == 0
               /\ snd (fst (frame sin cos ph0 t0 bhPosition)) == 0
               /\ snd (frame sin cos ph0 t0 bhPosition) == 0).
  { destruct bhPosition as [[x y] z].
    destruct Hph as [-> | ->]; cbn; repeat split; try reflexivity; ring. }
  revert H0. generalize (frame sin cos ph0 t0 bhPosition) as q.
  induction Hf as [| f frames' Hin _ IH]; intros q H0; cbn [fold_left].
  - exact H0.
  - apply IH. now apply frame_keeps_origin.
Qed.

End IntruderPath.

Lemma intruder_rests_at_origin_example :
  let sin := fun _ : Q => 3 # 5 in
  let cos := fun _ : Q => 4 # 5 in
  let p := IntruderMotion.run sin cos
             [(consumption, 0.016); (consumption, 9.9); (void, 4);
              (rebirth, 14); (stable, 4.9)]
             (12, 0, -9) in
  fst (fst p) == 0 /\ snd (fst p) == 0 /\ snd p == 0.
Proof.
  apply (intruder_rests_at_origin (fun _ => 3 # 5) (fun _ => 4 # 5)
           consumption 0.016
           [(consumption, 9.9); (void, 4); (rebirth, 14); (stable, 4.9)]
           (12, 0, -9)).
  - left. reflexivity.
  - repeat (apply Forall_cons; [cbn; auto 6 |]). apply Forall_nil.
Defined.


(** ** More on the Sun and the accretion disk *)

Section SunFacts.

Import Sun.

(** Division by a literal is multiplication by its inverse. *)
Ltac literal_div :=
  repeat match goal with
         | |- context [?t / 5] => change (t / 5) with (t * (1 # 5))
         | |- context [?t / 20] => change (t / 20) with (t * (1 # 20))
         end.

Lemma consumption_scale_bounds (t : Q) :
  0 <= t -> 0 <= consumption_scale t <= 1.
Proof.
  intros H. unfold consumption_scale, JS.Math_max. split.
  - apply Q.le_max_l.
  - apply Q.max_lub; [discriminate | literal_div; lra].
Qed.

(** X19. Whatever the Sun's callback writes stays in range: for a
    non-negative timer and intruder distance, the intensity handed to the
    rays and the stream lies between 0 and 1, the light intensity between
    0 and 2, and the amount reported as consumed between 0 and 1. *)
Theorem sun_outputs_in_range (ph : SimulationPhase) (timer dist : Q)
    (f : Frame) :
  0 <= timer -> 0 <= dist ->
  frame ph timer dist = Some f ->
  0 <= currentIntensity f <= 1
  /\ 0 <= lightIntensity f <= 2
  /\ (forall amount, onConsume f = Some amount -> 0 <= amount <= 1).
Proof.
  intros Ht Hd Hf.
  assert (Hm : 0 <= Qmin 1 (dist / 20) <= 1).
  { split; [apply Q.min_glb; [discriminate | literal_div; lra] |].
    apply Q.le_min_l. }
  pose proof (consumption_scale_bounds timer Ht) as Hs.
  destruct Hm as [Hm0 Hm1], Hs as [Hs0 Hs1].
  destruct ph; cbn in Hf; inversion Hf; subst f; clear Hf;
    cbn [currentIntensity lightIntensity onConsume]; unfold JS.Math_min;
    (split; [split; lra |]); (split; [split; lra |]);
    intros amount E; inversion E; subst amount; split; lra.
Qed.

Lemma sun_outputs_in_range_example :
  let sc := consumption_scale 2.5 in
  let f := mkFrame (sc, sc, sc) (sc * 0.5) sc (Some (1 - sc)) in
  0 <= currentIntensity f <= 1
  /\ 0 <= lightIntensity f <= 2
  /\ (forall amount, onConsume f = Some amount -> 0 <= amount <= 1).
Proof.
  apply (sun_outputs_in_range consumption 2.5 0).
  - discriminate.
  - discriminate.
  - reflexivity.
Defined.

Lemma stretch_at_distance (dist : Q) :
  0 <= dist ->
  0 < 15 / (dist + 0.1)
  /\ (15 / (dist + 0.1)) * (dist + 0.1) == 15.
Proof.
  intros H. assert (Hpos : 0 < dist + 0.1) by lra. split.
  - apply Qlt_shift_div_l; [exact Hpos | lra].
  - field. intros E. lra.
Qed.

(** X20. In interaction the Sun is stretched along one axis only and
    never squeezed: the scale is (1, 1, z) with [z >= 1.2]; the nearer the
    intruder the larger [z]; and from a distance of 14.9 on the stretch
    is at its floor, [z = 1.2]. *)
Theorem sun_stretch_has_a_floor (timer dist dist' : Q) :
  0 <= dist ->
  exists z z',
    option_map scale (frame interaction timer dist) = Some (1, 1, z)
    /\ option_map scale (frame interaction timer dist') = Some (1, 1, z')
    /\ 1.2 <= z
    /\ (dist <= dist' -> z' <= z)
    /\ (14.9 <= dist -> z == 1.2).
Proof.
  intros Hd.
  exists (1 + JS.Math_max 1 (15 / (dist + 0.1)) * 0.2),
         (1 + JS.Math_max 1 (15 / (dist' + 0.1)) * 0.2).
  split; [reflexivity |]. split; [reflexivity |].
  unfold JS.Math_max.
  destruct (stretch_at_distance dist Hd) as [Hk Hk15].
  split; [| split].
  - pose proof (Q.le_max_l 1 (15 / (dist + 0.1))). lra.
  - intros Hdd.
    assert (Hd' : 0 <= dist') by lra.
    destruct (stretch_at_distance dist' Hd') as [Hk' Hk15'].
    assert (Hle : 15 / (dist' + 0.1) <= 15 / (dist + 0.1)).
    { apply Qle_shift_div_r; [lra |]. nra. }
    pose proof (Q.max_le_compat_l _ _ 1 Hle). lra.
  - intros Hfar.
    assert (Hle : 15 / (dist + 0.1) <= 1).
    { apply Qle_shift_div_r; lra. }
    rewrite (Q.max_l 1 _ Hle). reflexivity.
Qed.

Lemma sun_stretch_has_a_floor_example :
  exists z z',
    option_map scale (frame interaction 3 8) = Some (1, 1, z)
    /\ option_map scale (frame interaction 3 20) = Some (1, 1, z')
    /\ 1.2 <= z
    /\ (8 <= 20 -> z' <= z)
    /\ (14.9 <= 8 -> z == 1.2).
Proof.
  apply (sun_stretch_has_a_floor 3 8 20). discriminate.
Defined.

Lemma sunConsumed_after_bounds (ph : SimulationPhase) (timer dist c : Q) :
  0 <= timer -> 0 <= c <= 1 ->
  0 <= sunConsumed_after ph timer dist c <= 1.
Proof.
  intros Ht Hc.
  pose proof (consumption_scale_bounds timer Ht) as [Hs0 Hs1].
  destruct ph; cbn; try exact Hc; split; try discriminate; lra.
Qed.

(** X21. The consumed amount stays a fraction: starting between 0 and
    1 and fed frames with non-negative timers it stays between 0 and 1,
    so whenever the accretion disk is drawn its inner radius is 2 and its
    outer radius lies between 2 and 6. *)
Theorem accretion_disk_is_well_formed
    (frames : list (SimulationPhase * Q * Q)) (c : Q) :
  Forall (fun f => 0 <= snd (fst f)) frames ->
  0 <= c <= 1 ->
  0 <= run frames c <= 1
  /\ forall ph inner outer,
      IntruderBlackHole.accretionDisk ph (run frames c) = Some (inner, outer) ->
      inner = 2 /\ 2 <= outer <= 6.
Proof.
  intros Hf Hc.
  assert (Hrun : 0 <= run frames c <= 1).
  { unfold run. revert c Hc.
    induction Hf as [| f frames Hf0 _ IH]; intros c Hc; cbn [fold_left].
    - exact Hc.
    - apply IH. now apply sunConsumed_after_bounds. }
  split; [exact Hrun |].
  intros ph inner outer H. destruct Hrun as [H0 H1].
  destruct ph; cbn in H; try discriminate H;
    inversion H; subst; split; try reflexivity; split; lra.
Qed.

Lemma accretion_disk_is_well_formed_example :
  let frames := [(approach, 9.9, 21); (interaction, 19, 8.5);
                 (consumption, 2.5, 0)] in
  0 <= run frames 0 <= 1
  /\ forall ph inner outer,
      IntruderBlackHole.accretionDisk ph (run frames 0) = Some (inner, outer) ->
      inner = 2 /\ 2 <= outer <= 6.
Proof.
  apply accretion_disk_is_well_formed.
  - repeat constructor; cbn; discriminate.
  - split; discriminate.
Defined.

(** X22. The accretion disk does not grow during interaction: the Sun
    reports no consumption there, so after a stable or approach frame and
    any number of interaction frames the consumed amount is still 0 and
    the disk is drawn with outer radius equal to its inner radius 2. *)
Theorem disk_has_no_width_in_interaction (ph0 : SimulationPhase)
    (t0 d0 c : Q) (frames : list (SimulationPhase * Q * Q)) :
  ph0 = stable \/ ph0 = approach ->
  Forall (fun f => fst (fst f) = interaction) frames ->
  run ((ph0, t0, d0) :: frames) c = 0
  /\ IntruderBlackHole.accretionDisk interaction
       (run ((ph0, t0, d0) :: frames) c) = Some (2, 2 + 0 * 4).
Proof.
  intros Hph Hf.
  assert (E : run ((ph0, t0, d0) :: frames) c = 0).
  { unfold run. cbn [fold_left fst snd].
    replace (sunConsumed_after ph0 t0 d0 c) with 0
      by (destruct Hph as [-> | ->]; reflexivity).
    induction Hf as [| [[ph t] d] frames Hf0 _ IH]; cbn [fold_left].
    - reflexivity.
    - cbn in Hf0. subst ph. exact IH. }
  split; [exact E |]. rewrite E. reflexivity.
Qed.

Lemma disk_has_no_width_in_interaction_example :
  run [(approach, 9.9, 21); (interaction, 1, 20); (interaction, 19, 8.5)] 0.7
  = 0
  /\ IntruderBlackHole.accretionDisk interaction
       (run [(approach, 9.9, 21); (interaction, 1, 20); (interaction, 19, 8.5)]
            0.7)
     = Some (2, 2 + 0 * 4).
Proof.
  apply (disk_has_no_width_in_interaction approach 9.9 21 0.7).
  - right. reflexivity.
  - repeat constructor.
Defined.

(** X23. In consumption the light stream from the Sun to the intruder
    is drawn from the intensity the callback stored, the shrinking scale,
    and it ends before the Sun does: it is shown for every timer up to
    4.7 s and hidden for every timer from 4.8 s on, where the scale
    [1 - t / 5] has crossed 0.05; once hidden it stays hidden for every
    later timer; and between 4.8 s and 5 s the Sun's scale is still
    positive. *)
Theorem light_stream_ends_before_the_sun (timer timer' dist : Q) :
  exists f f',
    frame consumption timer dist = Some f
    /\ frame consumption timer' dist = Some f'
    /\ (timer <= 4.7 -> showStream consumption (currentIntensity f) = true)
    /\ (4.8 <= timer -> showStream consumption (currentIntensity f) = false)
    /\ (4.8 <= timer < 5 -> 0 < currentIntensity f)
    /\ (timer <= timer' ->
        showStream consumption (currentIntensity f) = false ->
        showStream consumption (currentIntensity f') = false).
Proof.
  eexists. eexists. split; [reflexivity |]. split; [reflexivity |].
  cbn [currentIntensity]. unfold showStream. cbn [phase_eqb orb andb].
  unfold consumption_scale, JS.Math_max.
  split; [| split; [| split]].
  - intros H. apply gt_true_iff, Q.max_lt_iff. right. literal_div. lra.
  - intros H. apply gt_false_iff, Q.max_lub; [discriminate |].
    literal_div. lra.
  - intros [H1 H2]. apply Q.max_lt_iff. right. literal_div. lra.
  - intros Htt Hoff. apply gt_false_iff in Hoff. apply gt_false_iff.
    apply Qle_trans with (Qmax 0 (1 - timer / 5)); [| exact Hoff].
    apply Q.max_le_compat_l. literal_div. lra.
Qed.

End SunFacts.

(** ** More on the planets *)

Section PlanetOrbits.

Import Planet.

(** Division by a literal is multiplication by its inverse. *)
Ltac literal_div :=
  repeat match goal with
         | |- context [?t / 10] => change (t / 10) with (t * (1 # 10))
         end.

(** The orbit state after a frame of a planet that is not destroyed. *)
Lemma frame_live_state (data : CosmicObject) (ph : SimulationPhase)
    (timer delta : Q) (st : OrbitState) :
  destroyed st = false ->
  frame data ph timer delta st =
    let turned := angle st + speed data * delta * 0.5 in
    match ph with
    | void => st
    | rebirth =>
        mkOrbit (JS.lerp 0.1 (distance data) (JS.Math_min 1 (timer / 10)))
                (turned
                 + (2.0 * (1.0 - JS.Math_min 1 (timer / 10))
                    + speed data * 0.5))
                false
    | interaction =>
        mkOrbit (dist st) turned
                (String.eqb (name data) "Venus" && JS.gt timer 5)
    | consumption =>
        mkOrbit (JS.lerp (dist st) 0 (delta * 0.5)) turned
                (JS.lt (JS.lerp (dist st) 0 (delta * 0.5)) 2)
    | _ => mkOrbit (dist st) turned false
    end.
Proof.
  intros H. unfold frame, frame_updates, ref_current, rendered.
  rewrite H. destruct ph; cbn [phase_eqb orb negb andb app JS.apply_queue
                                 fold_left];
    unfold set_orbit; try (now rewrite ?H).
  - destruct (String.eqb (name data) "Venus" && JS.gt timer 5);
      cbn; now rewrite ?H.
  - destruct (JS.lt (JS.lerp (dist st) 0 (delta * 0.5)) 2);
      cbn; now rewrite ?H.
Qed.

(** X24. Destruction is final: the callback of a destroyed planet
    queues nothing in any phase, the stable phase included, so after any
    later frames the orbit state is the same and the planet is rendered in
    no phase. *)
Theorem destroyed_planet_never_returns (data : CosmicObject)
    (frames : list (SimulationPhase * Q * Q)) (st : OrbitState) :
  destroyed st = true ->
  run data frames st = st
  /\ (forall ph, rendered ph (run data frames st) = false)
  /\ (forall ph timer delta, frame_updates data ph timer delta st = []).
Proof.
  intros H. rewrite (run_destroyed _ _ _ H). split; [reflexivity |]. split.
  - intros ph. unfold rendered. now rewrite H.
  - intros ph timer delta. unfold frame_updates.
    now rewrite H, orb_true_r.
Qed.

Lemma destroyed_planet_never_returns_example :
  let frames := [(consumption, 9, 0.016); (void, 2, 0.016);
                 (rebirth, 12, 0.016); (stable, 1, 0.016);
                 (stable, 1.016, 0.016)] in
  let st := mkOrbit 1.9 7 true in
  run EARTH frames st = st
  /\ (forall ph, rendered ph (run EARTH frames st) = false)
  /\ (forall ph timer delta, frame_updates EARTH ph timer delta st = []).
Proof.
  apply destroyed_planet_never_returns. reflexivity.
Defined.

(** X25. Only the consumption phase can destroy a planet other than
    Venus: a planet with another name that is not destroyed stays so
    through any frames of the other five phases. *)
Theorem only_consumption_destroys_other_planets (data : CosmicObject)
    (frames : list (SimulationPhase * Q * Q)) (st : OrbitState) :
  name data <> "Venus"%string ->
  Forall (fun f => fst (fst f) <> consumption) frames ->
  destroyed st = false ->
  destroyed (run data frames st) = false.
Proof.
  intros Hname Hf. unfold run. revert st.
  induction Hf as [| [[ph t] d] frames Hph _ IH]; intros st H;
    cbn [fold_left fst snd].
  - exact H.
  - apply IH. rewrite (frame_live _ _ _ _ _ H).
    apply String.eqb_neq in Hname. rewrite Hname.
    cbn in Hph. destruct ph; try reflexivity. now contradiction Hph.
Qed.

Lemma only_consumption_destroys_other_planets_example :
  destroyed
    (run EARTH [(stable, 1, 0.016); (approach, 3, 0.016);
                (interaction, 19, 0.016); (void, 1, 5); (rebirth, 2, 0.5)]
         (initial EARTH))
  = false.
Proof.
  apply only_consumption_destroys_other_planets.
  - discriminate.
  - repeat constructor; cbn; discriminate.
  - reflexivity.
Defined.

(** X26. Outside consumption and rebirth a planet keeps its orbit: in
    the stable, approach and interaction phases a frame leaves the orbital
    radius as it is and turns the angle by [speed * delta * 0.5]; in the
    void the frame changes nothing. *)
Theorem orbit_radius_is_kept (data : CosmicObject) (ph : SimulationPhase)
    (timer delta : Q) (st : OrbitState) :
  destroyed st = false ->
  (In ph [stable; approach; interaction] ->
   dist (frame data ph timer delta st) = dist st
   /\ angle (frame data ph timer delta st)
      = angle st + speed data * delta * 0.5)
  /\ frame data void timer delta st = st.
Proof.
  intros H. split.
  - intros Hph. rewrite (frame_live_state _ _ _ _ _ H).
    destruct Hph as [<- | [<- | [<- | []]]]; split; reflexivity.
  - now rewrite (frame_live_state _ _ _ _ _ H).
Qed.

Lemma orbit_radius_is_kept_example :
  (In interaction [stable; approach; interaction] ->
   dist (frame VENUS interaction 6 0.016 (initial VENUS)) = dist (initial VENUS)
   /\ angle (frame VENUS interaction 6 0.016 (initial VENUS))
      = angle (initial VENUS) + speed VENUS * 0.016 * 0.5)
  /\ frame VENUS void 6 0.016 (initial VENUS) = initial VENUS.
Proof.
  apply (orbit_radius_is_kept VENUS interaction 6 0.016 (initial VENUS)).
  reflexivity.
Defined.

(** X27. In rebirth a live planet is placed by the timer alone: its
    radius is the interpolation from 0.1 to its nominal distance, whatever
    the radius was before; for a nominal distance of at least 0.1 and
    [t >= 0] it lies between 0.1 and the nominal distance, and from 10 s
    on it is the nominal distance.  The mesh scale is [min(1, t / 10)]:
    [t / 10] up to 10 s, so 0 at the start, and 1 from 10 s on. *)
Theorem rebirth_rebuilds_the_orbit (data : CosmicObject) (timer delta : Q)
    (st : OrbitState) :
  destroyed st = false -> 0 <= timer -> 0.1 <= distance data ->
  let st' := frame data rebirth timer delta st in
  dist st' = JS.lerp 0.1 (distance data) (JS.Math_min 1 (timer / 10))
  /\ 0.1 <= dist st' <= distance data
  /\ (10 <= timer -> dist st' == distance data)
  /\ destroyed st' = false
  /\ frame_scale rebirth timer st = Some (JS.Math_min 1 (timer / 10))
  /\ 0 <= JS.Math_min 1 (timer / 10) <= 1
  /\ (timer <= 10 -> JS.Math_min 1 (timer / 10) == timer / 10)
  /\ (10 <= timer -> JS.Math_min 1 (timer / 10) == 1).
Proof.
  intros H Ht Hd st'. subst st'. rewrite (frame_live_state _ _ _ _ _ H).
  cbn [dist destroyed]. unfold JS.lerp, JS.Math_min.
  assert (Hm : 0 <= Qmin 1 (timer / 10) <= 1).
  { split; [apply Q.min_glb; [discriminate | literal_div; lra] |].
    apply Q.le_min_l. }
  assert (Hfull : 10 <= timer -> Qmin 1 (timer / 10) == 1).
  { intros H10. apply Q.min_l. literal_div. lra. }
  assert (Hramp : timer <= 10 -> Qmin 1 (timer / 10) == timer / 10).
  { intros H10. apply Q.min_r. literal_div. lra. }
  destruct Hm as [Hm0 Hm1].
  split; [reflexivity |]. split; [split; nra |]. split.
  - intros H10. rewrite (Hfull H10). ring.
  - split; [reflexivity |]. split.
    + unfold frame_scale, ref_current, rendered. now rewrite H.
    + split; [split; assumption |]. split; assumption.
Qed.

Lemma rebirth_rebuilds_the_orbit_example :
  let st' := frame SATURN rebirth 5 0.016 (mkOrbit 3 1 false) in
  dist st' = JS.lerp 0.1 (distance SATURN) (JS.Math_min 1 (5 / 10))
  /\ 0.1 <= dist st' <= distance SATURN
  /\ (10 <= 5 -> dist st' == distance SATURN)
  /\ destroyed st' = false
  /\ frame_scale rebirth 5 (mkOrbit 3 1 false)
     = Some (JS.Math_min 1 (5 / 10))
  /\ 0 <= JS.Math_min 1 (5 / 10) <= 1
  /\ (5 <= 10 -> JS.Math_min 1 (5 / 10) == 5 / 10)
  /\ (10 <= 5 -> JS.Math_min 1 (5 / 10) == 1).
Proof.
  apply (rebirth_rebuilds_the_orbit SATURN 5 0.016 (mkOrbit 3 1 false)).
  - reflexivity.
  - discriminate.
  - discriminate.
Defined.

(** X28. In consumption a live planet spirals inwards: for a delta
    between 0 and 2 s and a non-negative radius, a frame multiplies the
    radius by [1 - delta / 2], so it does not grow and does not become
    negative, and the planet is marked destroyed exactly when the new
    radius is below 2. *)
Theorem consumption_shrinks_the_orbit (data : CosmicObject)
    (timer delta : Q) (st : OrbitState) :
  destroyed st = false -> 0 <= delta <= 2 -> 0 <= dist st ->
  let st' := frame data consumption timer delta st in
  dist st' == dist st * (1 - delta * 0.5)
  /\ 0 <= dist st' <= dist st
  /\ (destroyed st' = true <-> dist st' < 2).
Proof.
  intros H [Hd0 Hd2] Hr st'. subst st'.
  rewrite (frame_live_state _ _ _ _ _ H). cbn [dist destroyed].
  unfold JS.lerp. split; [ring |]. split; [split; nra |].
  apply lt_true_iff.
Qed.

Lemma consumption_shrinks_the_orbit_example :
  let st' := frame MARS consumption 1 0.5 (initial MARS) in
  dist st' == dist (initial MARS) * (1 - 0.5 * 0.5)
  /\ 0 <= dist st' <= dist (initial MARS)
  /\ (destroyed st' = true <-> dist st' < 2).
Proof.
  apply (consumption_shrinks_the_orbit MARS 1 0.5 (initial MARS)).
  - reflexivity.
  - split; discriminate.
  - discriminate.
Defined.

End PlanetOrbits.

(** ** Decoration: the galaxy backdrop and the asteroid belt *)

Section Decoration.

Import MilkyWay.

Lemma targetOpacity_cases (ph : SimulationPhase) (cameraDist : Q) :
  (targetOpacity ph cameraDist = 0.8
   /\ 100 < cameraDist /\ (ph = rebirth \/ ph = stable))
  \/ (targetOpacity ph cameraDist = 0
      /\ ~ (100 < cameraDist /\ (ph = rebirth \/ ph = stable))).
Proof.
  unfold targetOpacity.
  destruct (JS.gt cameraDist 100) eqn:E; cbn [andb].
  - apply gt_true_iff in E.
    destruct ph; cbn [phase_eqb orb]; auto;
      right; (split; [reflexivity |]); intros [_ [F | F]]; discriminate F.
  - apply gt_false_iff in E. right. split; [reflexivity |].
    intros [F _]. lra.
Qed.

(** One step of [lerp] with a weight in [0, 1] lands between its ends. *)
Lemma lerp_between (x y : Q) :
  Qmin x y <= JS.lerp x y 0.05 <= Qmax x y.
Proof.
  unfold JS.lerp.
  pose proof (Q.le_min_l x y). pose proof (Q.le_min_r x y).
  pose proof (Q.le_max_l x y). pose proof (Q.le_max_r x y).
  split; lra.
Qed.

(** X29. The galaxy backdrop fades smoothly: each frame moves every
    opacity one twentieth of the way to its target, so the gap to the
    target shrinks by the factor 0.95 and the new opacity lies between the
    old one and the target; and the target is non-zero only for a camera
    further than 100 from the origin in the rebirth or stable phase. *)
Theorem galaxy_fades_smoothly (ph : SimulationPhase) (cameraDist : Q)
    (o : Opacities) :
  let target := targetOpacity ph cameraDist in
  let o' := frame ph cameraDist o in
  particles1 o' - target * 0.3 == 0.95 * (particles1 o - target * 0.3)
  /\ particles2 o' - target * 0.5 == 0.95 * (particles2 o - target * 0.5)
  /\ glow o' - target * 0.05 == 0.95 * (glow o - target * 0.05)
  /\ Qmin (particles1 o) (target * 0.3) <= particles1 o'
     <= Qmax (particles1 o) (target * 0.3)
  /\ Qmin (particles2 o) (target * 0.5) <= particles2 o'
     <= Qmax (particles2 o) (target * 0.5)
  /\ Qmin (glow o) (target * 0.05) <= glow o'
     <= Qmax (glow o) (target * 0.05)
  /\ (target = 0.8 <-> 100 < cameraDist /\ (ph = rebirth \/ ph = stable))
  /\ (target = 0 <-> ~ (100 < cameraDist /\ (ph = rebirth \/ ph = stable))).
Proof.
  intros target o'. subst target o'.
  unfold frame. cbn [particles1 particles2 glow].
  split; [unfold JS.lerp; ring |].
  split; [unfold JS.lerp; ring |].
  split; [unfold JS.lerp; ring |].
  split; [apply lerp_between |].
  split; [apply lerp_between |].
  split; [apply lerp_between |].
  destruct (targetOpacity_cases ph cameraDist) as [[E H] | [E H]];
    rewrite E; split; split; intros F;
    first [ exact H | reflexivity | discriminate F | contradiction ].
Qed.

(** X30. The asteroid belt lies between Mars and Jupiter: for every
    draw [0 <= random < 1] an asteroid's orbital radius,
    [randomRange(35, 45)], is at least 35 and at most 45, beyond the orbit
    of Mars and within that of Jupiter. *)
Theorem asteroids_between_mars_and_jupiter (random : Q) :
  0 <= random < 1 ->
  35 <= AsteroidBelt.radius random <= 45
  /\ distance MARS < AsteroidBelt.radius random < distance JUPITER.
Proof.
  intros [H0 H1]. unfold AsteroidBelt.radius, Helpers.randomRange.
  cbn [distance MARS JUPITER].
  split; split; lra.
Qed.

Lemma asteroids_between_mars_and_jupiter_example :
  35 <= AsteroidBelt.radius 0.25 <= 45
  /\ distance MARS < AsteroidBelt.radius 0.25 < distance JUPITER.
Proof.
  apply (asteroids_between_mars_and_jupiter 0.25).
  split; [discriminate | reflexivity].
Defined.

End Decoration.
